(** * Retrieval subsystem of the document question-answering service

    A shallow embedding of the retrieval code of the repository
    (chunker, embedding gateway, vector index clients, request handler)
    and the properties of its design document that can be settled on it.

    Python [int] is [Z]; [str] is [string]; a [dict] with string keys is a
    [gmap string _]; an exception is a value of [exn] carried by [result]. *)

From Stdlib Require Import ZArith Lia Ascii String.
From stdpp Require Import base tactics option list strings gmap pretty.

Local Open Scope Z_scope.

(** ** Exceptions *)

Inductive exn : Type :=
| ValueError (msg : string)
| AssertionError
| IndexError
| KeyError (key : string)
| FileNotFoundError (path : string)
| RuntimeError (msg : string)
| HTTPException (status_code : Z) (detail : string)
| RemoteError (msg : string).

Inductive result (A : Type) : Type :=
| Ok (a : A)
| Raise (e : exn).
Arguments Ok {A} a.
Arguments Raise {A} e.

(** [x ← r; k] runs [k] on the value of [r] and propagates what [r] raised. *)
#[global] Instance result_bind : MBind result := λ A B k r,
  match r with
  | Ok a => k a
  | Raise e => Raise e
  end.
#[global] Instance result_ret : MRet result := λ A a, Ok a.

Definition is_ok {A} (r : result A) : bool :=
  match r with Ok _ => true | Raise _ => false end.

Definition len {A} (l : list A) : Z := Z.of_nat (length l).

(** A loop that appends the value of each step to a list and stops at the
    first step that raises. *)
Fixpoint collect {A} (steps : list (result A)) : result (list A) :=
  match steps with
  | [] => Ok []
  | t :: ts =>
      match t with
      | Raise e => Raise e
      | Ok a =>
          match collect ts with
          | Raise e => Raise e
          | Ok rest => Ok (a :: rest)
          end
      end
  end.

(** ** Python sequence helpers *)

Module Py.

(** [l[a:b]]: negative bounds count from the end, then both are clamped. *)
Definition clamp (n i : Z) : Z :=
  if decide (i < 0) then Z.max (i + n) 0 else Z.min i n.

Definition slice {A} (l : list A) (a b : Z) : list A :=
  let a' := clamp (len l) a in
  let b' := clamp (len l) b in
  take (Z.to_nat (b' - a')) (drop (Z.to_nat a') l).

(** Characters on which [str.split()] and [str.strip()] cut
    (the ASCII part of [str.isspace]). *)
Definition isspace (c : ascii) : bool :=
  let n := Z.of_nat (nat_of_ascii c) in
  ((9 <=? n) && (n <=? 13)) || ((28 <=? n) && (n <=? 32)).

(** [cur] accumulates the characters of the current word, last one first. *)
Definition flush (cur : list ascii) : string :=
  string_of_list_ascii (reverse cur).

Fixpoint split_go (s : string) (cur : list ascii) : list string :=
  match s with
  | EmptyString =>
      match cur with
      | [] => []
      | _ => [flush cur]
      end
  | String c s' =>
      if isspace c then
        match cur with
        | [] => split_go s' []
        | _ => flush cur :: split_go s' []
        end
      else split_go s' (c :: cur)
  end.

(** A word: not empty and free of white space. *)
Definition is_word (w : string) : Prop :=
  w ≠ EmptyString ∧ Forall (λ c, isspace c = false) (list_ascii_of_string w).

(** [text.split()] *)
Definition split (text : string) : list string := split_go text [].

(** [sep.join(l)] *)
Definition join (sep : string) (l : list string) : string := String.concat sep l.

(** [not text.strip()] *)
Fixpoint strip_is_empty (text : string) : bool :=
  match text with
  | EmptyString => true
  | String c s' => isspace c && strip_is_empty s'
  end.

(** [enumerate(l)] *)
Definition enumerate {A} (l : list A) : list (Z * A) :=
  imap (fun i a => (Z.of_nat i, a)) l.

(** [str(i)] for an integer. *)
Definition str (i : Z) : string := pretty i.

(** [os.getenv(name)] *)
Definition getenv (environ : gmap string string) (name : string) : option string :=
  environ !! name.

(** Truth value of an optional string. *)
Definition truthy (o : option string) : bool :=
  match o with
  | Some s => negb (bool_decide (s = EmptyString))
  | None => false
  end.

(** [a or b] on optional strings. *)
Definition py_or (a b : option string) : option string :=
  if truthy a then a else b.

(** [s.lower()] on ASCII letters. *)
Definition lower_char (c : ascii) : ascii :=
  let n := nat_of_ascii c in
  if ((65 <=? n) && (n <=? 90))%nat then ascii_of_nat (n + 32) else c.

Fixpoint lower (s : string) : string :=
  match s with
  | EmptyString => EmptyString
  | String c s' => String (lower_char c) (lower s')
  end.

(** [s.endswith(suffix)] *)
Definition endswith (s suffix : string) : bool :=
  bool_decide (list_ascii_of_string suffix `suffix_of` list_ascii_of_string s).

End Py.

(** ** app/services/chunker.py *)

Module Chunker.

(** The [while start < len(words)] loop. One unit of [fuel] pays for one
    evaluation of the loop condition; [None] means the fuel ran out with
    the loop still running. *)
Fixpoint chunk_loop (fuel : nat) (words : list string) (size overlap : Z)
    (start : Z) (chunks : list string) : option (list string) :=
  match fuel with
  | O => None
  | S fuel' =>
      if decide (start < len words) then
        let end_ := Z.min (start + size) (len words) in
        let chunk := Py.slice words start end_ in
        chunk_loop fuel' words size overlap (start + (size - overlap))
          (chunks ++ [Py.join " " chunk])
      else Some chunks
  end.

Definition chunk_text (fuel : nat) (text : string) (size overlap : Z)
    : option (list string) :=
  let words := Py.split text in
  match words with
  | [] => Some []
  | _ => chunk_loop fuel words size overlap 0 []
  end.

(** [chunk_text] returns [chunks] on this input. *)
Definition returns (text : string) (size overlap : Z) (chunks : list string) : Prop :=
  ∃ fuel, chunk_text fuel text size overlap = Some chunks.

(** [chunk_text] never leaves its loop on this input. *)
Definition diverges (text : string) (size overlap : Z) : Prop :=
  ∀ fuel, chunk_text fuel text size overlap = None.

(** The [k] windows taken from [start] on, [step] words apart. *)
Fixpoint windows (words : list string) (size step : Z) (k : nat) (start : Z)
    : list (list string) :=
  match k with
  | O => []
  | S k' =>
      Py.slice words start (Z.min (start + size) (len words))
        :: windows words size step k' (start + step)
  end.

(** Number of passes through the loop body from [start] on. *)
Definition passes (n step start : Z) : nat :=
  Z.to_nat ((n - start + step - 1) / step).

(** Where the last window starts when the loop runs from 0. *)
Definition last_start (n step : Z) : Z := (Z.of_nat (passes n step 0) - 1) * step.

(** [chunk_text(text)] with the default [size=300, overlap=50], on which
    the loop always ends within this fuel. *)
Definition chunk_text_default (text : string) : list string :=
  default [] (chunk_text (S (length (Py.split text))) text 300 50).

(** A document of 500 one-letter words. *)
Definition doc500 : string := Py.join " " (replicate 500 "w"%string).

End Chunker.

(** ** Numbers of the vector store

    The vector store computes on 32-bit floats. The index code never looks
    into them: it normalises rows, takes inner products and compares
    scores. These operations are the parameters of the model. *)

Class Numerics := {
  float32 : Type;
  (** one row of [faiss.normalize_L2] *)
  normalize_L2_row : list float32 → list float32;
  inner_product : list float32 → list float32 → float32;
  (** [a > b] on scores *)
  score_gt : float32 → float32 → bool;
  (** the score the store writes into a result slot it could not fill *)
  lowest_score : float32;
}.

(** ** app/services/vector_search.py *)

Module VectorSearch.
Section WithNumerics.
Context {num : Numerics}.

(** *** numpy and faiss, as far as the clients use them *)

(** A float32 array: one-dimensional and empty, or two-dimensional with
    [cols] columns. *)
Inductive ndarray : Type :=
| Array1D_empty
| Array2D (cols : Z) (rows : list (list float32)).

(** [np.array(rows, dtype=np.float32)] for a list of lists of numbers. *)
Definition np_array (rows : list (list float32)) : result ndarray :=
  match rows with
  | [] => Ok Array1D_empty
  | r :: rest =>
      if forallb (λ r', bool_decide (length r' = length r)) rest
      then Ok (Array2D (len r) rows)
      else Raise (ValueError "setting an array element with a sequence")
  end.

(** [faiss.normalize_L2(x)] reads [x.shape[1]]. *)
Definition normalize_L2 (x : ndarray) : result ndarray :=
  match x with
  | Array1D_empty => Raise IndexError
  | Array2D cols rows => Ok (Array2D cols (normalize_L2_row <$> rows))
  end.

(** [faiss.IndexFlatIP]: the dimension and the stored rows, in insertion
    order. *)
Record IndexFlatIP : Type := {
  d : Z;
  xb : list (list float32);
}.

Definition ntotal (ix : IndexFlatIP) : Z := len (xb ix).

(** [index.add(x)] asserts [x.shape[1] == d]. *)
Definition index_add (ix : IndexFlatIP) (x : ndarray) : result IndexFlatIP :=
  match x with
  | Array1D_empty => Raise (ValueError "not enough values to unpack")
  | Array2D cols rows =>
      if decide (cols = d ix) then Ok {| d := d ix; xb := xb ix ++ rows |}
      else Raise AssertionError
  end.

(** Insertion into a list sorted by descending score; among equal scores
    the element inserted last comes first. *)
Fixpoint insert_desc (e : float32 * Z) (l : list (float32 * Z)) : list (float32 * Z) :=
  match l with
  | [] => [e]
  | h :: t => if score_gt h.1 e.1 then h :: insert_desc e t else e :: l
  end.

(** All rows scored against [q], best first, positions as labels. *)
Definition ranking (ix : IndexFlatIP) (q : list float32) : list (float32 * Z) :=
  foldr insert_desc [] (imap (λ i x, (inner_product x q, Z.of_nat i)) (xb ix)).

(** The result of a search for one query row: the row of scores zipped
    with the row of labels, exactly [k] entries, label -1 in the slots the
    store could not fill. *)
Definition search_row (ix : IndexFlatIP) (k : Z) (q : list float32)
    : list (float32 * Z) :=
  let best := take (Z.to_nat k) (ranking ix q) in
  best ++ replicate (Z.to_nat k - length best) (lowest_score, -1).

(** [index.search(x, k)] asserts [x.shape[1] == d] and [k > 0] and
    searches for each row of [x]. *)
Definition index_search (ix : IndexFlatIP) (x : ndarray) (k : Z)
    : result (list (list (float32 * Z))) :=
  match x with
  | Array1D_empty => Raise (ValueError "not enough values to unpack")
  | Array2D cols rows =>
      if decide (cols = d ix) then
        if decide (0 < k) then Ok (search_row ix k <$> rows)
        else Raise AssertionError
      else Raise AssertionError
  end.

(** *** The files of a local index *)

Record disk : Type := {
  faiss_files : gmap string IndexFlatIP;
  metadata_files : gmap string (gmap string (gmap string string));
  id_mapping_files : gmap string (gmap string string);
}.

(** [open(path, 'r')] followed by [json.load]. *)
Definition json_load {A} (files : gmap string A) (path : string) : result A :=
  match files !! path with
  | Some content => Ok content
  | None => Raise (FileNotFoundError path)
  end.

(** *** FAISSClient *)

Record FAISSClient : Type := {
  index_name : string;
  dimension : Z;
  index_file : string;
  metadata_file : string;
  id_mapping_file : string;
  index : IndexFlatIP;
  metadata : gmap string (gmap string string);
  id_mapping : gmap string string;
}.

(** A record to store: [(id, embedding, metadata)]. *)
Definition vector : Type := string * list float32 * gmap string string.

Definition FAISSClient_init (fs : disk) (index_name : string) (dimension : Z)
    : result FAISSClient :=
  let index_file := index_name +:+ ".faiss" in
  let metadata_file := index_name +:+ "_metadata.json" in
  let id_mapping_file := index_name +:+ "_id_mapping.json" in
  match faiss_files fs !! index_file with
  | Some ix =>
      md ← json_load (metadata_files fs) metadata_file;
      idm ← json_load (id_mapping_files fs) id_mapping_file;
      Ok {| index_name := index_name; dimension := dimension;
            index_file := index_file; metadata_file := metadata_file;
            id_mapping_file := id_mapping_file;
            index := ix; metadata := md; id_mapping := idm |}
  | None =>
      Ok {| index_name := index_name; dimension := dimension;
            index_file := index_file; metadata_file := metadata_file;
            id_mapping_file := id_mapping_file;
            index := {| d := dimension; xb := [] |};
            metadata := ∅; id_mapping := ∅ |}
  end.

(** The loop of [upsert] over [enumerate(vectors)]: the state is
    [(embeddings, self.metadata, self.id_mapping)]. *)
Definition upsert_step (start_idx : Z)
    (st : list (list float32) * gmap string (gmap string string) * gmap string string)
    (iv : Z * vector)
    : list (list float32) * gmap string (gmap string string) * gmap string string :=
  let '(embeddings, md, idm) := st in
  let '(i, (vector_id, embedding, meta)) := iv in
  (embeddings ++ [embedding],
   <[vector_id := meta]> md,
   <[Py.str (start_idx + i) := vector_id]> idm).

Definition with_mappings (c : FAISSClient)
    (md : gmap string (gmap string string)) (idm : gmap string string) : FAISSClient :=
  {| index_name := index_name c; dimension := dimension c;
     index_file := index_file c; metadata_file := metadata_file c;
     id_mapping_file := id_mapping_file c;
     index := index c; metadata := md; id_mapping := idm |}.

Definition with_index (c : FAISSClient) (ix : IndexFlatIP) : FAISSClient :=
  {| index_name := index_name c; dimension := dimension c;
     index_file := index_file c; metadata_file := metadata_file c;
     id_mapping_file := id_mapping_file c;
     index := ix; metadata := metadata c; id_mapping := id_mapping c |}.

(** [faiss.write_index] and the two [json.dump]s. *)
Definition save (c : FAISSClient) (fs : disk) : disk :=
  {| faiss_files := <[index_file c := index c]> (faiss_files fs);
     metadata_files := <[metadata_file c := metadata c]> (metadata_files fs);
     id_mapping_files := <[id_mapping_file c := id_mapping c]> (id_mapping_files fs) |}.

(** [FAISSClient.upsert]. The client and the disk are returned as the call
    leaves them, also when it raises. *)
Definition upsert (c : FAISSClient) (fs : disk) (vectors : list vector)
    : FAISSClient * disk * result unit :=
  let start_idx := ntotal (index c) in
  let '(embeddings, md, idm) :=
    foldl (upsert_step start_idx) ([], metadata c, id_mapping c)
      (Py.enumerate vectors) in
  let c1 := with_mappings c md idm in
  match
    embeddings_np ← np_array embeddings;
    embeddings_np ← normalize_L2 embeddings_np;
    index_add (index c1) embeddings_np
  with
  | Raise e => (c1, fs, Raise e)
  | Ok ix =>
      let c2 := with_index c1 ix in
      (c2, save c2 fs, Ok ())
  end.

(** A match: ['id'], ['score'] and, when present, ['metadata']. *)
Record Match : Type := {
  match_id : string;
  match_score : float32;
  match_metadata : option (gmap string string);
}.

(** The loop of [query] over [zip(scores[0], indices[0])]. *)
Fixpoint format_matches (c : FAISSClient) (include_metadata : bool)
    (found : list (float32 * Z)) : list Match :=
  match found with
  | [] => []
  | (score, idx) :: rest =>
      if decide (idx = -1) then []
      else
        let faiss_idx := Py.str idx in
        let original_id := default faiss_idx (id_mapping c !! faiss_idx) in
        {| match_id := original_id;
           match_score := score;
           match_metadata :=
             if include_metadata then metadata c !! original_id else None |}
          :: format_matches c include_metadata rest
  end.

Definition query (c : FAISSClient) (embedding : list float32) (top_k : Z)
    (include_metadata : bool) : result (list Match) :=
  if decide (ntotal (index c) = 0) then Ok []
  else
    query_np ← np_array [embedding];
    query_np ← normalize_L2 query_np;
    found ← index_search (index c) query_np (Z.min top_k (ntotal (index c)));
    row0 ← match found with
           | row :: _ => Ok row
           | [] => Raise IndexError
           end;
    Ok (format_matches c include_metadata row0).

(** *** PineconeClient *)

(** What the service keeps about an index it hosts. *)
Record index_description : Type := {
  idx_name : string;
  idx_dimension : Z;
  idx_metric : string;
  idx_cloud : string;
  idx_region : string;
}.

(** The control plane of the service: whether it answers, and the indexes
    it hosts. *)
Record control_plane : Type := {
  reachable : bool;
  hosted : list index_description;
}.

Definition list_indexes (pc : control_plane) : result (list index_description) :=
  if reachable pc then Ok (hosted pc) else Raise (RemoteError "unreachable").

Definition create_index (pc : control_plane) (desc : index_description)
    : result control_plane :=
  if reachable pc then
    if decide (idx_name desc ∈ idx_name <$> hosted pc)
    then Raise (RemoteError "already exists")
    else Ok {| reachable := true; hosted := hosted pc ++ [desc] |}
  else Raise (RemoteError "unreachable").

Record PineconeClient : Type := {
  pc_api_key : string;
  pc_index_name : string;
}.

(** [PineconeClient.__init__]; the control plane is returned as the call
    leaves it. *)
Definition PineconeClient_init (environ : gmap string string) (pc : control_plane)
    (api_key environment : option string) (index_name : string)
    : control_plane * result PineconeClient :=
  let api_key := Py.py_or api_key (Py.getenv environ "PINECONE_API_KEY") in
  let environment :=
    Py.py_or environment
      (Some (default "us-west1-gcp"%string (Py.getenv environ "PINECONE_ENVIRONMENT"))) in
  match api_key with
  | Some key =>
      if Py.truthy api_key then
        match list_indexes pc with
        | Raise e => (pc, Raise e)
        | Ok listed =>
            let existing_indexes := idx_name <$> listed in
            let client := {| pc_api_key := key; pc_index_name := index_name |} in
            if decide (index_name ∈ existing_indexes) then (pc, Ok client)
            else
              match
                create_index pc
                  {| idx_name := index_name;
                     idx_dimension := 1536;
                     idx_metric := "cosine";
                     idx_cloud := "aws";
                     idx_region := "us-west-2" |}
              with
              | Raise e => (pc, Raise e)
              | Ok pc' => (pc', Ok client)
              end
        end
      else (pc, Raise (ValueError "PINECONE_API_KEY must be set"))
  | None => (pc, Raise (ValueError "PINECONE_API_KEY must be set"))
  end.

(** *** create_vector_client *)

Inductive vector_client : Type :=
| UsePinecone (c : PineconeClient)
| UseFAISS (c : FAISSClient).

(** [PINECONE_AVAILABLE] and [FAISS_AVAILABLE] tell which imports
    succeeded. *)
Definition create_vector_client (PINECONE_AVAILABLE FAISS_AVAILABLE : bool)
    (environ : gmap string string) (pc : control_plane) (fs : disk)
    (index_name : string) (dimension : Z)
    : control_plane * result vector_client :=
  let api_key := Py.getenv environ "PINECONE_API_KEY" in
  let local (pc : control_plane) :=
    if FAISS_AVAILABLE then
      (pc, c ← FAISSClient_init fs index_name dimension; Ok (UseFAISS c))
    else
      (pc, Raise (RuntimeError "No vector database available (neither Pinecone nor FAISS)")) in
  if PINECONE_AVAILABLE && Py.truthy api_key then
    match PineconeClient_init environ pc None None index_name with
    | (pc', Ok c) => (pc', Ok (UsePinecone c))
    | (pc', Raise _) => local pc'
    end
  else local pc.

(** *** The data plane of the managed index

    What the remote service does with an upsert or a query is not code of
    the repository: it is a parameter. *)

Record remote_index : Type := {
  remote_state : Type;
  (** [index.upsert(vectors=batch)] *)
  remote_upsert : remote_state → string → list vector → remote_state * result unit;
  (** [index.query(vector, top_k, include_metadata)['matches']] *)
  remote_query : remote_state → string → list float32 → Z → bool → result (list Match);
}.

(** The loop of [PineconeClient.upsert] over [range(0, len(vectors), 100)];
    [rest] is [vectors[i:]]. *)
Fixpoint pinecone_upsert_loop (svc : remote_index) (name : string) (fuel : nat)
    (r : remote_state svc) (rest : list vector) : remote_state svc * result unit :=
  match fuel with
  | O => (r, Ok ())
  | S fuel' =>
      match rest with
      | [] => (r, Ok ())
      | _ =>
          let batch := take 100 rest in
          match remote_upsert svc r name batch with
          | (r', Ok _) => pinecone_upsert_loop svc name fuel' r' (drop 100 rest)
          | (r', Raise e) => (r', Raise e)
          end
      end
  end.

Definition pinecone_upsert (svc : remote_index) (c : PineconeClient)
    (r : remote_state svc) (vectors : list vector) : remote_state svc * result unit :=
  pinecone_upsert_loop svc (pc_index_name c) (length vectors) r vectors.

Definition pinecone_query (svc : remote_index) (c : PineconeClient)
    (r : remote_state svc) (embedding : list float32) (top_k : Z)
    (include_metadata : bool) : result (list Match) :=
  remote_query svc r (pc_index_name c) embedding top_k include_metadata.

(** *** The two clients behind one interface *)

Record backends (svc : remote_index) : Type := {
  remote : remote_state svc;
  local_disk : disk;
}.
Arguments remote {svc} b.
Arguments local_disk {svc} b.

Definition client_upsert (svc : remote_index) (vc : vector_client)
    (b : backends svc) (vectors : list vector)
    : vector_client * backends svc * result unit :=
  match vc with
  | UsePinecone c =>
      let '(r', res) := pinecone_upsert svc c (remote b) vectors in
      (vc, {| remote := r'; local_disk := local_disk b |}, res)
  | UseFAISS c =>
      let '(c', fs', res) := upsert c (local_disk b) vectors in
      (UseFAISS c', {| remote := remote b; local_disk := fs' |}, res)
  end.

Definition client_query (svc : remote_index) (vc : vector_client)
    (b : backends svc) (embedding : list float32) (top_k : Z)
    (include_metadata : bool) : result (list Match) :=
  match vc with
  | UsePinecone c => pinecone_query svc c (remote b) embedding top_k include_metadata
  | UseFAISS c => query c embedding top_k include_metadata
  end.

End WithNumerics.
End VectorSearch.

(** ** app/services/embedding_engine.py *)

Module EmbeddingEngine.
Section WithNumerics.
Context {num : Numerics}.

(** The [input] of an embeddings request: one text or a list of texts. *)
Inductive embed_input : Type :=
| One (text : string)
| Many (texts : list string).

(** The module's configuration and the remote services it calls.
    [openai_client] is the client object when [OPENAI_API_KEY] is set: its
    [embeddings.create] gives the embeddings of [response.data], in the
    order of the response. *)
Record services : Type := {
  openai_client : option (embed_input → result (list (list float32)));
  GEMINI_API_KEY : option string;
  DEEPSEEK_API_KEY : option string;
  _get_gemini_embedding : string → result (list float32);
  _get_deepseek_embedding : string → result (list float32);
}.

(** [response.data[0].embedding] *)
Definition first_embedding (data : list (list float32)) : result (list float32) :=
  match data with
  | e :: _ => Ok e
  | [] => Raise IndexError
  end.

Definition get_embedding (s : services) (text provider : string)
    : result (list float32) :=
  match decide (provider = "openai"%string), openai_client s with
  | left _, Some create =>
      data ← create (One text);
      first_embedding data
  | _, _ =>
      if bool_decide (provider = "gemini"%string) && Py.truthy (GEMINI_API_KEY s)
      then _get_gemini_embedding s text
      else if bool_decide (provider = "deepseek"%string) && Py.truthy (DEEPSEEK_API_KEY s)
      then _get_deepseek_embedding s text
      else Raise (ValueError ("Provider '" +:+ provider +:+ "' not available or API key missing"))
  end.

(** [await asyncio.gather] of the tasks: the results in the order of the
    tasks, or an exception of a task that raised. Which failing task is
    reported depends on timing; here it is the first in the list. *)
Definition gather {A} (tasks : list (result A)) : result (list A) := collect tasks.

Definition get_embeddings_batch (s : services) (texts : list string) (provider : string)
    : result (list (list float32)) :=
  match decide (provider = "openai"%string), openai_client s with
  | left _, Some create => create (Many texts)
  | _, _ => gather ((λ text, get_embedding s text provider) <$> texts)
  end.

End WithNumerics.
End EmbeddingEngine.

(** ** app/core/config.py *)

Module Config.

Record Settings : Type := {
  VECTOR_INDEX_NAME : string;
  EMBEDDING_DIMENSION : Z;
  CHUNK_SIZE : Z;
  CHUNK_OVERLAP : Z;
  TOP_K_RESULTS : Z;
  DEFAULT_LLM_PROVIDER : string;
  DEFAULT_EMBEDDING_PROVIDER : string;
}.

(** The settings when none of these variables is set in the
    environment. *)
Definition default_settings : Settings :=
  {| VECTOR_INDEX_NAME := "policy-index";
     EMBEDDING_DIMENSION := 768;
     CHUNK_SIZE := 300;
     CHUNK_OVERLAP := 50;
     TOP_K_RESULTS := 5;
     DEFAULT_LLM_PROVIDER := "gemini";
     DEFAULT_EMBEDDING_PROVIDER := "gemini" |}.

End Config.

(** ** app/api/endpoints.py *)

Module Endpoints.
Section WithNumerics.
Context {num : Numerics}.
Import VectorSearch.

Record QueryRequest : Type := {
  documents : string;
  questions : list string;
}.

Record Clause : Type := {
  clause_text : string;
  clause_explanation : option string;
}.

Record Answer : Type := {
  answer : string;
  clauses : list Clause;
  decision_rationale : string;
}.

Record QueryResponse : Type := {
  answers : list Answer;
}.

(** [urlparse(doc_url)]: the parts of the URL, of which the handler reads
    the path, or a ValueError, for one on a host with an opening bracket
    and no closing one. *)
Inductive urlparse_result : Type :=
| Parsed (path : string)
| Invalid (msg : string).

(** What the handler calls outside the retrieval code: URL parsing, text
    extraction, the embedding services, the language model, the managed
    index, and [str(e)] of an exception. *)
Record collaborators : Type := {
  urlparse : string → urlparse_result;
  extract_text : string → string → result string;
  embedding : EmbeddingEngine.services;
  generate_intelligent_answer : string → list string → string → result (string * string);
  create_clause_explanations : list string → list float32 → string → result (list Clause);
  managed : remote_index;
  exception_str : exn → string;
}.

(** The module-level [vector_client] and the stores behind it. *)
Record state (w : collaborators) : Type := {
  the_vector_client : option vector_client;
  stores : backends (managed w);
}.
Arguments the_vector_client {w} s.
Arguments stores {w} s.

(** The [try] around [create_vector_client] when the module is loaded. *)
Definition startup (PINECONE_AVAILABLE FAISS_AVAILABLE : bool)
    (environ : gmap string string) (pc : control_plane) (fs : disk)
    (settings : Config.Settings) : control_plane * option vector_client :=
  match
    create_vector_client PINECONE_AVAILABLE FAISS_AVAILABLE environ pc fs
      (Config.VECTOR_INDEX_NAME settings) (Config.EMBEDDING_DIMENSION settings)
  with
  | (pc', Ok vc) => (pc', Some vc)
  | (pc', Raise _) => (pc', None)
  end.

(** The document type the path stands for, if any. *)
Definition doc_type_of (file_path : string) : option string :=
  if Py.endswith file_path ".pdf" then Some "pdf"%string
  else if Py.endswith file_path ".docx" then Some "docx"%string
  else None.

(** [(str(idx), emb, {"text": chunks[idx]})] for each embedding. *)
Definition vectors_to_upsert (chunks : list string)
    (chunk_embeddings : list (list float32)) : result (list vector) :=
  collect
    ((λ ie : Z * list float32,
        match chunks !! Z.to_nat ie.1 with
        | Some chunk => Ok (Py.str ie.1, ie.2, {[ "text"%string := chunk ]})
        | None => Raise IndexError
        end) <$> Py.enumerate chunk_embeddings).

(** [match['metadata']['text']] *)
Definition metadata_text (m : Match) : result string :=
  match match_metadata m with
  | None => Raise (KeyError "metadata")
  | Some md =>
      match md !! "text"%string with
      | Some t => Ok t
      | None => Raise (KeyError "text")
      end
  end.

(** The body of the loop over the questions. *)
Definition answer_question (w : collaborators) (settings : Config.Settings)
    (vc : vector_client) (b : backends (managed w)) (question : string)
    : result Answer :=
  query_emb ← EmbeddingEngine.get_embedding (embedding w) question
                 (Config.DEFAULT_EMBEDDING_PROVIDER settings);
  matches ← client_query (managed w) vc b query_emb (Config.TOP_K_RESULTS settings) true;
  relevant_chunks ← collect (metadata_text <$> matches);
  let scores := match_score <$> matches in
  ar ← generate_intelligent_answer w question (take 3 relevant_chunks)
         (Config.DEFAULT_LLM_PROVIDER settings);
  matched_clauses ← create_clause_explanations w relevant_chunks scores question;
  Ok {| answer := ar.1; clauses := matched_clauses; decision_rationale := ar.2 |}.

(** The body of the [try] block of [run_query]. The state is returned as
    the block leaves it, also when it raises. *)
Definition process (w : collaborators) (settings : Config.Settings) (st : state w)
    (payload : QueryRequest) (doc_type : string) : state w * result QueryResponse :=
  match extract_text w (documents payload) doc_type with
  | Raise e => (st, Raise e)
  | Ok text =>
      if Py.strip_is_empty text then
        (st, Raise (HTTPException 422 "Failed to extract any text from the document."))
      else
        let chunks := Chunker.chunk_text_default text in
        match chunks with
        | [] => (st, Raise (HTTPException 422 "No valid chunks generated from document text."))
        | _ =>
            match
              EmbeddingEngine.get_embeddings_batch (embedding w) chunks
                (Config.DEFAULT_EMBEDDING_PROVIDER settings)
            with
            | Raise e => (st, Raise e)
            | Ok chunk_embeddings =>
                match the_vector_client st with
                | None => (st, Raise (HTTPException 500 "Vector database not available"))
                | Some vc =>
                    match vectors_to_upsert chunks chunk_embeddings with
                    | Raise e => (st, Raise e)
                    | Ok vectors =>
                        let '(vc', b', res) :=
                          client_upsert (managed w) vc (stores st) vectors in
                        let st' := {| the_vector_client := Some vc'; stores := b' |} in
                        match res with
                        | Raise e => (st', Raise e)
                        | Ok _ =>
                            (st',
                             results ← collect (answer_question w settings vc' b'
                                                  <$> questions payload);
                             Ok {| answers := results |})
                        end
                    end
                end
            end
        end
  end.

(** [run_query]: the URL parsing and the extension check, both before the
    [try], then the [try] block with its [except Exception] clause. What
    [urlparse] raises leaves the handler as it is. *)
Definition run_query (w : collaborators) (settings : Config.Settings) (st : state w)
    (payload : QueryRequest) : state w * result QueryResponse :=
  match urlparse w (documents payload) with
  | Invalid msg => (st, Raise (ValueError msg))
  | Parsed path =>
      let file_path := Py.lower path in
      match doc_type_of file_path with
      | None => (st, Raise (HTTPException 400 "Only PDF and DOCX URLs are supported."))
      | Some doc_type =>
          match process w settings st payload doc_type with
          | (st', Ok response) => (st', Ok response)
          | (st', Raise e) =>
              (st', Raise (HTTPException 500
                             ("Failed to process request: " +:+ exception_str w e)))
          end
      end
  end.

(** The status code of the HTTP response the framework sends. *)
Definition http_status (r : result QueryResponse) : Z :=
  match r with
  | Ok _ => 200
  | Raise (HTTPException status_code _) => status_code
  | Raise _ => 500
  end.

End WithNumerics.
End Endpoints.

(** ** Exact numbers for worked examples

    Integers with exact arithmetic. On vectors with at most one non-zero
    component, which is all the examples use, L2 normalisation maps
    each component to its sign; float32 arithmetic is exact on the
    results. Other vectors are left as they are. *)

Module Exact.

Definition dot (x y : list Z) : Z := foldr Z.add 0 (zip_with Z.mul x y).

Definition axis_aligned (v : list Z) : bool :=
  bool_decide (length (filter (λ a : Z, a ≠ 0%Z) v) ≤ 1)%nat.

Definition normalize (v : list Z) : list Z :=
  if axis_aligned v then Z.sgn <$> v else v.

Definition numerics : Numerics :=
  {| float32 := Z;
     normalize_L2_row := normalize;
     inner_product := dot;
     score_gt := Z.gtb;
     lowest_score := - (2 ^ 128 - 2 ^ 104) |}.

(** A new local index of dimension 2 on an empty disk. *)
Definition empty_disk : VectorSearch.disk (num := numerics) :=
  {| VectorSearch.faiss_files := ∅;
     VectorSearch.metadata_files := ∅;
     VectorSearch.id_mapping_files := ∅ |}.

Definition text_is (t : string) : gmap string string := {[ "text"%string := t ]}.

(** [FAISSClient("policy-index", 2)] on the empty disk. *)
Definition fresh : VectorSearch.FAISSClient (num := numerics) :=
  {| VectorSearch.index_name := "policy-index";
     VectorSearch.dimension := 2;
     VectorSearch.index_file := "policy-index.faiss";
     VectorSearch.metadata_file := "policy-index_metadata.json";
     VectorSearch.id_mapping_file := "policy-index_id_mapping.json";
     VectorSearch.index := {| VectorSearch.d := 2; VectorSearch.xb := [] |};
     VectorSearch.metadata := ∅;
     VectorSearch.id_mapping := ∅ |}.


(** A match with its id, score and metadata. *)
Definition found (id : string) (score : Z) (md : option (gmap string string))
    : VectorSearch.Match (num := numerics) :=
  @VectorSearch.Build_Match numerics id score md.

(** A vector store of dimension 2 that holds one vector. *)
Definition one_vector : VectorSearch.IndexFlatIP (num := numerics) :=
  @VectorSearch.Build_IndexFlatIP numerics 2 [[0; 1]].

(** Files left behind by an interrupted run: a vector store with one
    vector, and two empty mapping files. *)
Definition stale_disk : VectorSearch.disk (num := numerics) :=
  {| VectorSearch.faiss_files :=
       {[ "policy-index.faiss"%string := one_vector ]};
     VectorSearch.metadata_files := {[ "policy-index_metadata.json"%string := ∅ ]};
     VectorSearch.id_mapping_files := {[ "policy-index_id_mapping.json"%string := ∅ ]} |}.

(** The client that [FAISSClient("policy-index", 2)] builds from them. *)
Definition stale : VectorSearch.FAISSClient (num := numerics) :=
  {| VectorSearch.index_name := "policy-index";
     VectorSearch.dimension := 2;
     VectorSearch.index_file := "policy-index.faiss";
     VectorSearch.metadata_file := "policy-index_metadata.json";
     VectorSearch.id_mapping_file := "policy-index_id_mapping.json";
     VectorSearch.index := one_vector;
     VectorSearch.metadata := ∅;
     VectorSearch.id_mapping := ∅ |}.


(** An environment with the key of the managed service, and a reachable
    service that hosts no index yet. *)
Definition environ_with_key : gmap string string :=
  {[ "PINECONE_API_KEY"%string := "key"%string ]}.

Definition no_indexes : VectorSearch.control_plane :=
  {| VectorSearch.reachable := true; VectorSearch.hosted := [] |}.

(** The index the managed client creates under the name [policy-index]. *)
Definition created_index : VectorSearch.index_description :=
  {| VectorSearch.idx_name := "policy-index";
     VectorSearch.idx_dimension := 1536;
     VectorSearch.idx_metric := "cosine";
     VectorSearch.idx_cloud := "aws";
     VectorSearch.idx_region := "us-west-2" |}.

(** Embedding services that embed a text as its length. The first has a
    native batch request; the second has none and fails on the empty
    text. *)
Definition by_length (text : string) : list Z := [Z.of_nat (String.length text)].



Definition gemini_services : EmbeddingEngine.services (num := numerics) :=
  @EmbeddingEngine.Build_services numerics
    None (Some "key"%string) None
    (λ text, if bool_decide (text = EmptyString)
             then Raise (RemoteError "400") else Ok (by_length text))
    (λ _, Raise (RemoteError "403")).



(** A request for a PDF whose extracted text is two blanks and a newline. *)
Definition no_remote : VectorSearch.remote_index (num := numerics) :=
  @VectorSearch.Build_remote_index numerics unit
    (λ r _ _, (r, Ok ()))
    (λ _ _ _ _ _, Ok []).

(** A remote index that answers every query with the same two matches,
    whatever [top_k] is. *)
Definition two_matches : list (VectorSearch.Match (num := numerics)) :=
  [ @VectorSearch.Build_Match numerics "a" 1 None;
    @VectorSearch.Build_Match numerics "b" 0 None ].

Definition generous_remote : VectorSearch.remote_index (num := numerics) :=
  @VectorSearch.Build_remote_index numerics unit
    (λ r _ _, (r, Ok ()))
    (λ _ _ _ _ _, Ok two_matches).

Definition managed_policy_index : VectorSearch.PineconeClient :=
  {| VectorSearch.pc_api_key := "key"; VectorSearch.pc_index_name := "policy-index" |}.

Definition str_of_exn (e : exn) : string :=
  match e with
  | HTTPException status_code detail => Py.str status_code +:+ ": " +:+ detail
  | ValueError msg | RuntimeError msg | RemoteError msg => msg
  | KeyError key => key
  | FileNotFoundError path => path
  | AssertionError | IndexError => EmptyString
  end.

Definition blank_document : Endpoints.collaborators (num := numerics) :=
  @Endpoints.Build_collaborators numerics
    (λ _, Endpoints.Parsed "/assets/policy.PDF")
    (λ _ _, Ok (String " " (String " " (String "010" EmptyString))))
    gemini_services
    (λ _ _ _, Ok (EmptyString, EmptyString))
    (λ _ _ _, Ok [])
    no_remote
    str_of_exn.

Definition blank_state : Endpoints.state blank_document :=
  @Endpoints.Build_state numerics blank_document
    (Some (VectorSearch.UseFAISS fresh))
    (@VectorSearch.Build_backends numerics no_remote tt empty_disk).

Definition blank_request : Endpoints.QueryRequest :=
  {| Endpoints.documents := "https://example.org/assets/policy.PDF?sig=1";
     Endpoints.questions := ["What is covered?"%string] |}.

End Exact.

(** ** app/services/query_service.py *)

Module QueryService.

(** The loop of [QueryService._chunk_text]: the loop of [chunk_text] with
    [chunk_size = 300] and [overlap = 50] written in. *)
Fixpoint _chunk_text_loop (fuel : nat) (words : list string) (start : Z)
    (chunks : list string) : option (list string) :=
  match fuel with
  | O => None
  | S fuel' =>
      if decide (start < len words) then
        let chunk_size := 300 in
        let overlap := 50 in
        let end_ := Z.min (start + chunk_size) (len words) in
        _chunk_text_loop fuel' words (start + (chunk_size - overlap))
          (chunks ++ [Py.join " " (Py.slice words start end_)])
      else Some chunks
  end.

(** [QueryService._chunk_text]; there is no early return on an empty word
    list. *)
Definition _chunk_text (fuel : nat) (text : string) : option (list string) :=
  _chunk_text_loop fuel (Py.split text) 0 [].

End QueryService.

(** ** States of a local index client *)

Module LocalIndex.
Section WithNumerics.
Context {num : Numerics}.
Import VectorSearch.

(** The three file names are the ones the constructor derives from the
    index name. *)
Definition well_named (c : FAISSClient) : Prop :=
  index_file c = index_name c +:+ ".faiss"
  ∧ metadata_file c = index_name c +:+ "_metadata.json"
  ∧ id_mapping_file c = index_name c +:+ "_id_mapping.json".

(** Every stored position has an id, and every mapped id has metadata. *)
Definition mapped (c : FAISSClient) : Prop :=
  (∀ i, 0 ≤ i < ntotal (index c) → is_Some (id_mapping c !! Py.str i))
  ∧ (∀ k id, id_mapping c !! k = Some id → is_Some (metadata c !! id)).

End WithNumerics.
End LocalIndex.

(** ** Batches of a managed upsert *)

Module ManagedIndex.
Section WithNumerics.
Context {num : Numerics}.
Import VectorSearch.

(** The slices [vectors[i:i+100]] for [i] in [range(0, len(vectors), 100)]. *)
Fixpoint batches_of {A} (fuel : nat) (rest : list A) : list (list A) :=
  match fuel with
  | O => []
  | S fuel' =>
      match rest with
      | [] => []
      | _ => take 100 rest :: batches_of fuel' (drop 100 rest)
      end
  end.

Definition batches {A} (l : list A) : list (list A) := batches_of (length l) l.

(** One remote upsert per batch, in order, up to the first that raises. *)
Fixpoint send_batches (svc : remote_index) (name : string) (r : remote_state svc)
    (bs : list (list vector)) : remote_state svc * result unit :=
  match bs with
  | [] => (r, Ok ())
  | b :: bs' =>
      match remote_upsert svc r name b with
      | (r', Ok _) => send_batches svc name r' bs'
      | (r', Raise e) => (r', Raise e)
      end
  end.

(** The key [PineconeClient.__init__] ends up with. *)
Definition resolved_key (environ : gmap string string) (api_key : option string)
    : option string :=
  Py.py_or api_key (Py.getenv environ "PINECONE_API_KEY").

End WithNumerics.
End ManagedIndex.

(** ** More string operations of Python *)

Module PyText.

(** A line feed and a double quote, as one-character strings. *)
Definition nl : string := String "010" EmptyString.
Definition dq : string := String "034" EmptyString.

(** The characters left after the leading white space. *)
Fixpoint lstrip_chars (l : list ascii) : list ascii :=
  match l with
  | [] => []
  | c :: l' => if Py.isspace c then lstrip_chars l' else l
  end.

(** [s.strip()] *)
Definition strip (s : string) : string :=
  string_of_list_ascii
    (reverse (lstrip_chars (reverse (lstrip_chars (list_ascii_of_string s))))).

(** [s.upper()] on ASCII letters. *)
Definition upper_char (c : ascii) : ascii :=
  let n := nat_of_ascii c in
  if ((97 <=? n) && (n <=? 122))%nat then ascii_of_nat (n - 32) else c.

Fixpoint upper (s : string) : string :=
  match s with
  | EmptyString => EmptyString
  | String c s' => String (upper_char c) (upper s')
  end.

(** [s[:n]] *)
Definition first_chars (n : nat) (s : string) : string := String.substring 0 n s.

(** No white space at either end. *)
Definition stripped (s : string) : Prop :=
  (∀ c, head (list_ascii_of_string s) = Some c → Py.isspace c = false)
  ∧ (∀ c, last (list_ascii_of_string s) = Some c → Py.isspace c = false).

End PyText.

(** ** app/services/llm_service.py *)

Module LlmService.
Section WithNumerics.
Context {num : Numerics}.
Import PyText.

(** The language model behind [generate_gemini_response(prompt,
    max_tokens, temperature)], and the formatting of a score with three
    decimals. *)
Record language_model : Type := {
  generate_gemini_response : string → Z → QArith_base.Q → result string;
  format_3f : float32 → string;
}.

(** The prompt of [generate_intelligent_answer]. *)
Definition answer_context (relevant_chunks : list string) : string :=
  Py.join (nl +:+ nl)
    (imap (λ i chunk, "Chunk " +:+ Py.str (Z.of_nat i + 1) +:+ ":" +:+ nl +:+ chunk)
       relevant_chunks).

Definition answer_prompt (question : string) (relevant_chunks : list string) : string :=
  nl +:+ "Based on the following document excerpts, please provide a comprehensive answer to the question."
  +:+ nl +:+ nl +:+ "DOCUMENT EXCERPTS:"
  +:+ nl +:+ answer_context relevant_chunks
  +:+ nl +:+ nl +:+ "QUESTION: " +:+ question
  +:+ nl +:+ nl +:+ "Instructions:"
  +:+ nl +:+ "1. Provide a direct, accurate answer based only on the information in the document excerpts"
  +:+ nl +:+ "2. If the answer is not clearly found in the excerpts, state "
  +:+ dq +:+ "The document does not contain sufficient information to answer this question" +:+ dq
  +:+ nl +:+ "3. Cite specific parts of the document that support your answer"
  +:+ nl +:+ "4. Be concise but thorough"
  +:+ nl +:+ nl +:+ "ANSWER:" +:+ nl.

Definition answer_rationale (provider : string) (relevant_chunks : list string) : string :=
  "Answer generated using " +:+ upper provider +:+ " LLM based on "
  +:+ Py.str (len relevant_chunks)
  +:+ " most relevant document sections retrieved through semantic vector search.".

Definition generate_intelligent_answer (m : language_model) (question : string)
    (relevant_chunks : list string) (provider : string) : result (string * string) :=
  let prompt := answer_prompt question relevant_chunks in
  response ←
    (if bool_decide (provider = "gemini"%string)
     then generate_gemini_response m prompt 800 (QArith_base.Qmake 3 10)
     else generate_gemini_response m prompt 800 (QArith_base.Qmake 3 10));
  let answer := strip response in
  let rationale := answer_rationale provider relevant_chunks in
  Ok (answer, rationale).

(** The prompt of [create_clause_explanations] for one chunk. *)
Definition explanation_prompt (question chunk : string) : string :=
  nl +:+ "Explain in 1-2 sentences why this document excerpt is relevant to the question: "
  +:+ dq +:+ question +:+ dq
  +:+ nl +:+ nl +:+ "Document excerpt:"
  +:+ nl +:+ first_chars 500 chunk +:+ "..."
  +:+ nl +:+ nl +:+ "Keep the explanation concise and specific." +:+ nl.

(** The body of the loop of [create_clause_explanations], with its
    [try] and [except Exception]. *)
Definition explain (m : language_model) (question : string)
    (cs : string * float32) : Endpoints.Clause :=
  let explanation :=
    match
      generate_gemini_response m (explanation_prompt question cs.1) 150
        (QArith_base.Qmake 2 10)
    with
    | Ok explanation =>
        "Relevance score: " +:+ format_3f m cs.2 +:+ " - " +:+ strip explanation
    | Raise _ =>
        "Semantic similarity score: " +:+ format_3f m cs.2
        +:+ " - This section contains content related to your query."
    end in
  {| Endpoints.clause_text := cs.1; Endpoints.clause_explanation := Some explanation |}.

Definition create_clause_explanations (m : language_model)
    (chunks : list string) (scores : list float32) (question : string)
    : list Endpoints.Clause :=
  explain m question <$> zip chunks scores.

(** The handler's collaborators use this language model. *)
Definition served_by (m : language_model) (w : Endpoints.collaborators) : Prop :=
  (∀ question relevant_chunks provider,
     Endpoints.generate_intelligent_answer w question relevant_chunks provider
     = generate_intelligent_answer m question relevant_chunks provider)
  ∧ (∀ chunks scores question,
     Endpoints.create_clause_explanations w chunks scores question
     = Ok (create_clause_explanations m chunks scores question)).

End WithNumerics.
End LlmService.

(** ** Worked examples for the further properties *)

Module Samples.

(** Five words. *)
Definition five_words : string := "a b  c d e".

(** Two records of dimension 2. *)
Definition two_records : list (VectorSearch.vector (num := Exact.numerics)) :=
  [("a"%string, [1; 0], Exact.text_is "x"); ("b"%string, [0; 1], Exact.text_is "y")].

(** A local index of dimension 1 on the empty disk. *)
Definition fresh1 : VectorSearch.FAISSClient (num := Exact.numerics) :=
  {| VectorSearch.index_name := "policy-index";
     VectorSearch.dimension := 1;
     VectorSearch.index_file := "policy-index.faiss";
     VectorSearch.metadata_file := "policy-index_metadata.json";
     VectorSearch.id_mapping_file := "policy-index_id_mapping.json";
     VectorSearch.index := @VectorSearch.Build_IndexFlatIP Exact.numerics 1 [];
     VectorSearch.metadata := ∅;
     VectorSearch.id_mapping := ∅ |}.

(** A remote index that records the ids of each batch it accepts and
    rejects a batch that holds the id "bad". *)
Definition picky_remote : VectorSearch.remote_index (num := Exact.numerics) :=
  @VectorSearch.Build_remote_index Exact.numerics (list (list string))
    (λ r _ batch,
       if bool_decide ("bad"%string ∈ (λ v : string * list Z * gmap string string, v.1.1) <$> batch)
       then (r, Raise (RemoteError "400"))
       else (r ++ [(λ v : string * list Z * gmap string string, v.1.1) <$> batch], Ok ()))
    (λ _ _ _ _ _, Ok []).

Definition managed_client : VectorSearch.PineconeClient :=
  {| VectorSearch.pc_api_key := "key"; VectorSearch.pc_index_name := "policy-index" |}.

(** 100 good records followed by a bad one. *)
Definition hundred_and_one : list (VectorSearch.vector (num := Exact.numerics)) :=
  replicate 100 ("ok"%string, [1; 0], ∅) ++ [("bad"%string, [1; 0], ∅)].

(** A language model that answers the question prompt and fails on every
    explanation prompt; a score, an integer here, is printed with three
    decimals. *)
Definition moody_model : LlmService.language_model (num := Exact.numerics) :=
  @LlmService.Build_language_model Exact.numerics
    (λ _ max_tokens _,
       if bool_decide (max_tokens = 150) then Raise (RemoteError "503")
       else Ok (String " " (String "Y" (String "e" (String "s" (String "010" EmptyString))))))
    (λ score, Py.str score +:+ ".000").

(** A request that goes through: a PDF whose text is "hello world", the
    embeddings by length, the local index of dimension 1. *)
Definition answering : Endpoints.collaborators (num := Exact.numerics) :=
  @Endpoints.Build_collaborators Exact.numerics
    (λ _, Endpoints.Parsed "/assets/policy.pdf")
    (λ _ _, Ok "hello world"%string)
    Exact.gemini_services
    (LlmService.generate_intelligent_answer moody_model)
    (λ chunks scores question,
       Ok (LlmService.create_clause_explanations moody_model chunks scores question))
    Exact.no_remote
    Exact.str_of_exn.


(** The local index after the chunk "hello world" was stored, and the
    stores behind it. *)
Definition indexed_client : VectorSearch.vector_client (num := Exact.numerics) :=
  VectorSearch.UseFAISS
    (VectorSearch.upsert fresh1 Exact.empty_disk
       [("0"%string, [11], Exact.text_is "hello world")]).1.1.

Definition no_stores : VectorSearch.backends Exact.no_remote :=
  @VectorSearch.Build_backends Exact.numerics Exact.no_remote tt Exact.empty_disk.

(** The same handler when no vector client could be built at start. *)
Definition no_client_state : Endpoints.state answering :=
  @Endpoints.Build_state Exact.numerics answering None
    (@VectorSearch.Build_backends Exact.numerics Exact.no_remote tt Exact.empty_disk).

Definition two_questions : Endpoints.QueryRequest :=
  {| Endpoints.documents := "https://example.org/assets/policy.pdf";
     Endpoints.questions := ["What?"%string; "Why not?"%string] |}.

(** A request for a text file. *)
Definition text_file_request : Endpoints.QueryRequest :=
  {| Endpoints.documents := "https://example.org/notes.txt";
     Endpoints.questions := ["What?"%string] |}.

Definition text_file_world : Endpoints.collaborators (num := Exact.numerics) :=
  @Endpoints.Build_collaborators Exact.numerics
    (λ _, Endpoints.Parsed "/notes.txt")
    (λ _ _, Ok "hello world"%string)
    Exact.gemini_services
    (LlmService.generate_intelligent_answer moody_model)
    (λ chunks scores question,
       Ok (LlmService.create_clause_explanations moody_model chunks scores question))
    Exact.no_remote
    Exact.str_of_exn.

Definition text_file_state : Endpoints.state text_file_world :=
  @Endpoints.Build_state Exact.numerics text_file_world
    (Some (VectorSearch.UseFAISS fresh1))
    (@VectorSearch.Build_backends Exact.numerics Exact.no_remote tt Exact.empty_disk).

(** A request whose URL has an opening bracket in its host and no closing
    one: [urlparse] raises ValueError on it. *)
Definition malformed_url_request : Endpoints.QueryRequest :=
  {| Endpoints.documents := "http://[abc.pdf";
     Endpoints.questions := ["What?"%string] |}.

Definition malformed_url_world : Endpoints.collaborators (num := Exact.numerics) :=
  @Endpoints.Build_collaborators Exact.numerics
    (λ url, if bool_decide (url = "http://[abc.pdf"%string)
            then Endpoints.Invalid "Invalid IPv6 URL"
            else Endpoints.Parsed "/assets/policy.pdf")
    (λ _ _, Ok "hello world"%string)
    Exact.gemini_services
    (LlmService.generate_intelligent_answer moody_model)
    (λ chunks scores question,
       Ok (LlmService.create_clause_explanations moody_model chunks scores question))
    Exact.no_remote
    Exact.str_of_exn.

Definition malformed_url_state : Endpoints.state malformed_url_world :=
  @Endpoints.Build_state Exact.numerics malformed_url_world
    (Some (VectorSearch.UseFAISS fresh1))
    (@VectorSearch.Build_backends Exact.numerics Exact.no_remote tt Exact.empty_disk).

End Samples.

(** * Properties *)

(** ** Sequences *)

Lemma len_nonneg {A} (l : list A) : 0 ≤ len l.
Proof. unfold len. lia. Qed.

Lemma slice_prefix {A} (l : list A) (b : Z) :
  0 ≤ b → Py.slice l 0 b = take (Z.to_nat b) l.
Proof.
  intros Hb. unfold Py.slice, Py.clamp.
  pose proof (len_nonneg l) as Hl.
  repeat case_decide; try lia.
  rewrite (Z.min_l 0) by lia. rewrite Z.sub_0_r.
  change (Z.to_nat 0) with 0%nat. rewrite drop_0.
  destruct (decide (b ≤ len l)).
  - by rewrite Z.min_l by lia.
  - rewrite Z.min_r by lia. unfold len in *.
    rewrite !take_ge; [done | lia | lia].
Qed.

Lemma slice_suffix {A} (l : list A) (a : Z) :
  0 ≤ a ≤ len l → Py.slice l a (len l) = drop (Z.to_nat a) l.
Proof.
  intros Ha. unfold Py.slice, Py.clamp.
  repeat case_decide; try lia.
  rewrite Z.min_id, Z.min_l by lia.
  apply take_ge. rewrite length_drop. unfold len. lia.
Qed.

(** ** Splitting and joining words *)

Lemma flush_word cur :
  cur ≠ [] → Forall (λ c, Py.isspace c = false) cur → Py.is_word (Py.flush cur).
Proof.
  intros Hne Hcur. unfold Py.flush. split.
  - intros Heq. apply (f_equal list_ascii_of_string) in Heq.
    rewrite list_ascii_of_string_of_list_ascii in Heq. simpl in Heq.
    apply (f_equal reverse) in Heq. rewrite reverse_involutive in Heq. done.
  - rewrite list_ascii_of_string_of_list_ascii. by apply Forall_reverse.
Qed.

(** Every element of [text.split()] is a word. *)
Lemma split_go_words s :
  ∀ cur, Forall (λ c, Py.isspace c = false) cur → Forall Py.is_word (Py.split_go s cur).
Proof.
  induction s as [|c s IH]; intros cur Hcur; simpl.
  - destruct cur; [constructor|]. constructor; [|constructor].
    by apply flush_word.
  - destruct (Py.isspace c) eqn:Hc.
    + destruct cur.
      * by apply IH.
      * constructor; [by apply flush_word | by apply IH].
    + apply IH. by constructor.
Qed.

Lemma split_words text : Forall Py.is_word (Py.split text).
Proof. apply split_go_words. constructor. Qed.

Lemma split_go_prefix w :
  Forall (λ c, Py.isspace c = false) (list_ascii_of_string w) →
  ∀ s cur, Py.split_go (w +:+ s) cur
           = Py.split_go s (reverse (list_ascii_of_string w) ++ cur).
Proof.
  induction w as [|c w IH]; intros Hw s cur; [done|].
  change (String c w +:+ s) with (String c (w +:+ s)).
  simpl in *. inversion Hw as [|? ? Hc Hw']; subst.
  rewrite Hc, IH by done. by rewrite reverse_cons, <- app_assoc.
Qed.

Lemma flush_reverse w : Py.flush (reverse (list_ascii_of_string w)) = w.
Proof.
  unfold Py.flush. rewrite reverse_involutive.
  apply string_of_list_ascii_of_string.
Qed.

Lemma reverse_chars_nonempty w :
  w ≠ EmptyString → reverse (list_ascii_of_string w) ≠ [].
Proof.
  destruct w as [|c w]; [done|]. intros _ Heq. simpl in Heq.
  rewrite reverse_cons in Heq. by destruct (reverse (list_ascii_of_string w)).
Qed.

Lemma string_app_empty w : w +:+ EmptyString = w.
Proof.
  induction w as [|c w IH]; [done|].
  change (String c (w +:+ EmptyString) = String c w). by rewrite IH.
Qed.

(** Splitting a join of words gives the words back. *)
Lemma split_join ws : Forall Py.is_word ws → Py.split (Py.join " " ws) = ws.
Proof.
  unfold Py.split, Py.join.
  induction ws as [|w ws IH]; intros Hws; [done|].
  inversion Hws as [|? ? [Hne Hw] Hws']; subst.
  pose proof (reverse_chars_nonempty w Hne) as Hrev.
  destruct ws as [|w2 ws].
  - simpl. rewrite <- (string_app_empty w) at 1.
    rewrite split_go_prefix, app_nil_r by done. simpl.
    destruct (reverse (list_ascii_of_string w)) eqn:Heq; [done|].
    by rewrite <- Heq, flush_reverse.
  - change (String.concat " " (w :: w2 :: ws))
      with (w +:+ String " "%char (String.concat " " (w2 :: ws))).
    rewrite split_go_prefix, app_nil_r by done.
    change (Py.split_go (String " "%char (String.concat " " (w2 :: ws)))
              (reverse (list_ascii_of_string w)))
      with (match reverse (list_ascii_of_string w) with
            | [] => Py.split_go (String.concat " " (w2 :: ws)) []
            | _ => Py.flush (reverse (list_ascii_of_string w))
                     :: Py.split_go (String.concat " " (w2 :: ws)) []
            end).
    destruct (reverse (list_ascii_of_string w)) eqn:Heq; [done|].
    rewrite <- Heq, flush_reverse. f_equal. by apply IH.
Qed.

(** ** Chunker *)

Section ChunkLoop.
Variable words : list string.
Variables size overlap : Z.
Let step := size - overlap.
Let n := len words.

Lemma passes_next start :
  0 < step → start < n →
  Chunker.passes n step start = S (Chunker.passes n step (start + step)).
Proof.
  intros Hstep Hlt. unfold Chunker.passes.
  replace (n - start + step - 1) with ((n - start - 1) + 1 * step) by lia.
  rewrite Z.div_add by lia.
  replace (n - (start + step) + step - 1) with (n - start - 1) by lia.
  assert (0 ≤ (n - start - 1) / step) by (apply Z.div_pos; lia).
  lia.
Qed.

Lemma passes_done start :
  0 < step → ¬ start < n → Chunker.passes n step start = 0%nat.
Proof.
  intros Hstep Hge. unfold Chunker.passes.
  assert ((n - start + step - 1) / step ≤ 0); [|lia].
  assert ((n - start + step - 1) / step < 1); [|lia].
  apply Z.div_lt_upper_bound; lia.
Qed.

(** With the stride positive, the loop leaves after [passes] rounds and
    has appended exactly the joined windows. *)
Lemma chunk_loop_windows k :
  0 < step → ∀ start fuel chunks,
  Chunker.passes n step start = k → (k < fuel)%nat →
  Chunker.chunk_loop fuel words size overlap start chunks
  = Some (chunks ++ (Py.join " " <$> Chunker.windows words size step k start)).
Proof.
  intros Hstep. induction k as [|k IH]; intros start fuel chunks Hk Hfuel.
  - destruct fuel as [|fuel]; [lia|]. simpl.
    case_decide as Hlt.
    + rewrite passes_next in Hk by done. discriminate.
    + by rewrite app_nil_r.
  - destruct fuel as [|fuel]; [lia|]. simpl.
    case_decide as Hlt.
    + rewrite passes_next in Hk by done.
      rewrite (IH (start + step)%Z fuel) by lia.
      by rewrite <- app_assoc.
    + rewrite passes_done in Hk by done. discriminate.
Qed.

(** With the stride not positive, the loop condition stays true forever. *)
Lemma chunk_loop_stuck fuel :
  step ≤ 0 → ∀ start chunks, start < n →
  Chunker.chunk_loop fuel words size overlap start chunks = None.
Proof.
  intros Hstep. induction fuel as [|fuel IH]; intros start chunks Hlt; [done|].
  simpl. case_decide; [|done]. apply IH. lia.
Qed.

Lemma passes_bound : 0 < step → (Chunker.passes n step 0 ≤ length words)%nat.
Proof.
  intros Hstep. unfold Chunker.passes. rewrite Z.sub_0_r.
  assert ((n + step - 1) / step ≤ n); [|subst n; unfold len in *; lia].
  pose proof (len_nonneg words).
  destruct (decide (n = 0)) as [->|].
  - simpl. apply Z.lt_succ_r, Z.div_lt_upper_bound; lia.
  - apply Z.lt_succ_r, Z.div_lt_upper_bound; [lia|]. nia.
Qed.

Lemma windows_snoc k start :
  Chunker.windows words size step (S k) start
  = Chunker.windows words size step k start
    ++ [Py.slice words (start + Z.of_nat k * step)
          (Z.min (start + Z.of_nat k * step + size) n)].
Proof.
  revert start. induction k as [|k IH]; intros start.
  - simpl. by rewrite Z.add_0_r.
  - change (Chunker.windows words size step (S (S k)) start)
      with (Py.slice words start (Z.min (start + size) n)
              :: Chunker.windows words size step (S k) (start + step)).
    rewrite IH. simpl.
    replace (start + step + Z.of_nat k * step) with (start + Z.of_nat (S k) * step) by lia.
    done.
Qed.

Lemma last_start_bounds :
  0 < step → 0 < n →
  0 ≤ Chunker.last_start n step < n ∧ n ≤ Chunker.last_start n step + step.
Proof.
  intros Hstep Hn. unfold Chunker.last_start, Chunker.passes. rewrite Z.sub_0_r.
  pose proof (Z.div_mod (n + step - 1) step ltac:(lia)) as Hdm.
  pose proof (Z.mod_pos_bound (n + step - 1) step Hstep) as Hm.
  assert (1 ≤ (n + step - 1) / step) by (apply Z.div_le_lower_bound; lia).
  rewrite Z2Nat.id by lia. nia.
Qed.

Lemma chunk_loop_mono fuel :
  ∀ start chunks r fuel',
  Chunker.chunk_loop fuel words size overlap start chunks = Some r →
  (fuel ≤ fuel')%nat →
  Chunker.chunk_loop fuel' words size overlap start chunks = Some r.
Proof.
  induction fuel as [|fuel IH]; intros start chunks r fuel' Hr Hle; [done|].
  destruct fuel' as [|fuel']; [lia|]. simpl in *.
  case_decide; [|done]. eapply IH; [done|lia].
Qed.

End ChunkLoop.

Lemma chunk_text_mono fuel fuel' text size overlap r :
  Chunker.chunk_text fuel text size overlap = Some r →
  (fuel ≤ fuel')%nat →
  Chunker.chunk_text fuel' text size overlap = Some r.
Proof.
  unfold Chunker.chunk_text. destruct (Py.split text); [done|].
  apply chunk_loop_mono.
Qed.

(** [chunk_text] has at most one result. *)
Lemma returns_functional text size overlap r1 r2 :
  Chunker.returns text size overlap r1 →
  Chunker.returns text size overlap r2 → r1 = r2.
Proof.
  intros [f1 H1] [f2 H2].
  apply (chunk_text_mono _ (f1 `max` f2)%nat) in H1; [|lia].
  apply (chunk_text_mono _ (f1 `max` f2)%nat) in H2; [|lia].
  congruence.
Qed.

(** Under [overlap < size] a fuel of one more than the word count is
    enough, and the result is the list of joined windows. *)
Lemma chunk_text_windows text size overlap :
  overlap < size →
  let ws := Py.split text in
  Chunker.chunk_text (S (length ws)) text size overlap
  = Some (Py.join " " <$>
            Chunker.windows ws size (size - overlap)
              (Chunker.passes (len ws) (size - overlap) 0) 0).
Proof.
  intros Hlt ws. unfold Chunker.chunk_text. fold ws.
  destruct ws as [|w ws'] eqn:Hws.
  - unfold Chunker.passes. change (len (@nil string)) with 0.
    replace (0 - 0 + (size - overlap) - 1) with (size - overlap - 1) by lia.
    rewrite Z.div_small by lia. done.
  - rewrite <- Hws.
    rewrite (chunk_loop_windows ws size overlap
               (Chunker.passes (len ws) (size - overlap) 0)); [done|lia|done|].
    pose proof (passes_bound ws size overlap ltac:(lia)). lia.
Qed.

Lemma chunk_text_returns_windows text size overlap :
  overlap < size →
  Chunker.returns text size overlap
    (Py.join " " <$>
       Chunker.windows (Py.split text) size (size - overlap)
         (Chunker.passes (len (Py.split text)) (size - overlap) 0) 0).
Proof. intros Hlt. eexists. by apply chunk_text_windows. Qed.

(** The last chunk is the tail of the word list from [last_start] on. *)
Lemma chunk_text_last_window text size overlap :
  0 ≤ overlap < size → Py.split text ≠ [] →
  let ws := Py.split text in
  let s := Z.to_nat (Chunker.last_start (len ws) (size - overlap)) in
  ∃ init,
    Chunker.returns text size overlap (init ++ [Py.join " " (drop s ws)])
    ∧ (s < length ws)%nat
    ∧ len (drop s ws) ≤ size.
Proof.
  intros Hso Hne ws s.
  assert (0 < len ws) as Hn.
  { unfold len. destruct ws eqn:Hws; [done|]. simpl. lia. }
  destruct (last_start_bounds ws size overlap ltac:(lia) Hn) as [Hls Hend].
  pose proof (chunk_text_returns_windows text size overlap ltac:(lia)) as Hret.
  fold ws in Hret.
  assert (Chunker.passes (len ws) (size - overlap) 0
          = S (Chunker.passes (len ws) (size - overlap) (0 + (size - overlap)))) as Hp
    by (apply passes_next; lia).
  unfold Chunker.last_start in *. subst s.
  rewrite Hp in *. rewrite windows_snoc, fmap_app in Hret.
  replace (Z.of_nat (S (Chunker.passes (len ws) (size - overlap) (0 + (size - overlap)))) - 1)
    with (Z.of_nat (Chunker.passes (len ws) (size - overlap) (0 + (size - overlap))))
    in * by lia.
  set (ls := Z.of_nat (Chunker.passes (len ws) (size - overlap) (0 + (size - overlap)))
             * (size - overlap)) in *.
  rewrite Z.add_0_l, Z.min_r, slice_suffix in Hret by lia.
  eexists. split; [exact Hret|].
  unfold len in *. rewrite length_drop. lia.
Qed.

(** C5. A text of 500 words chunked with size 300 and overlap 50 gives
    exactly two chunks: the join of the first 300 words, and the join of
    words 251 to 500 (250 words); split again, each chunk gives back
    exactly those words. For every text with at least one word and every
    [0 <= overlap < size], the result ends with a chunk that is the join
    of a non-empty tail of the word list (so the last word is kept) and
    holds at most [size] words. *)
Theorem chunk_text_scenario_and_final_window (text : string) :
  let ws := Py.split text in
  (length ws = 500%nat →
     (∀ chunks, Chunker.returns text 300 50 chunks ↔
        chunks = [Py.join " " (take 300 ws); Py.join " " (drop 250 ws)])
     ∧ Py.split (Py.join " " (take 300 ws)) = take 300 ws
     ∧ length (take 300 ws) = 300%nat
     ∧ Py.split (Py.join " " (drop 250 ws)) = drop 250 ws
     ∧ length (drop 250 ws) = 250%nat)
  ∧ (∀ size overlap, 0 ≤ overlap < size → ws ≠ [] →
     ∃ init (s : nat),
       Chunker.returns text size overlap (init ++ [Py.join " " (drop s ws)])
       ∧ Py.split (Py.join " " (drop s ws)) = drop s ws
       ∧ (0 < length (drop s ws))%nat
       ∧ len (drop s ws) ≤ size).
Proof.
  intros ws. pose proof (split_words text) as Hwords. fold ws in Hwords. split.
  - intros H500.
    assert (Chunker.returns text 300 50
              [Py.join " " (take 300 ws); Py.join " " (drop 250 ws)]) as Hret.
    { pose proof (chunk_text_returns_windows text 300 50 ltac:(lia)) as Hret.
      fold ws in Hret. unfold len in Hret. rewrite H500 in Hret.
      change (Chunker.passes (Z.of_nat 500) (300 - 50) 0) with 2%nat in Hret.
      simpl in Hret. unfold len in Hret. rewrite H500 in Hret.
      change (Z.min (0 + 300) (Z.of_nat 500)) with 300 in Hret.
      change (Z.min (0 + (300 - 50) + 300) (Z.of_nat 500)) with (Z.of_nat 500) in Hret.
      rewrite slice_prefix in Hret by lia.
      assert (Z.of_nat 500 = len ws) as Hn by (unfold len; by rewrite H500).
      rewrite Hn, slice_suffix in Hret by lia.
      exact Hret. }
    split; [|repeat split].
    + intros chunks. split.
      * intros Hc. by eapply returns_functional.
      * by intros ->.
    + apply split_join. by apply Forall_take.
    + rewrite length_take. lia.
    + apply split_join. by apply Forall_drop.
    + rewrite length_drop. lia.
  - intros size overlap Hso Hne.
    destruct (chunk_text_last_window text size overlap Hso Hne)
      as (init & Hret & Hs & Hlen).
    fold ws in Hret, Hs, Hlen.
    eexists init, _. split; [exact Hret|]. split; [|split; [|exact Hlen]].
    + apply split_join. by apply Forall_drop.
    + rewrite length_drop. lia.
Qed.

Lemma chunk_text_scenario_witness :
  Chunker.returns Chunker.doc500 300 50
    [Py.join " " (take 300 (Py.split Chunker.doc500));
     Py.join " " (drop 250 (Py.split Chunker.doc500))]
  ∧ ∃ init (s : nat),
      Chunker.returns Chunker.doc500 7 3
        (init ++ [Py.join " " (drop s (Py.split Chunker.doc500))])
      ∧ (0 < length (drop s (Py.split Chunker.doc500)))%nat.
Proof.
  destruct (chunk_text_scenario_and_final_window Chunker.doc500) as [H1 H2].
  split.
  - assert (length (Py.split Chunker.doc500) = 500%nat) as H500
      by (vm_compute; reflexivity).
    destruct (H1 H500) as [Hret _]. by apply Hret.
  - destruct (H2 7 3) as (init & s & Hret & _ & Hpos & _); [lia | |].
    + vm_compute. discriminate.
    + by exists init, s.
Defined.

(** C6 (as the code has it). With [overlap < size] the chunker returns,
    and a fuel of one more than the number of words is enough. No check of
    the precondition is made: with [overlap >= size] and at least one word
    the loop never ends; a text without words returns the empty list
    whatever [size] and [overlap] are. *)
Theorem chunk_text_termination (text : string) (size overlap : Z) :
  (overlap < size →
     ∃ chunks,
       Chunker.chunk_text (S (length (Py.split text))) text size overlap
       = Some chunks)
  ∧ (size ≤ overlap → Py.split text ≠ [] → Chunker.diverges text size overlap)
  ∧ (Py.split text = [] → Chunker.returns text size overlap []).
Proof.
  split; [|split].
  - intros Hlt. eexists. by apply chunk_text_windows.
  - intros Hge Hne fuel. unfold Chunker.chunk_text.
    destruct (Py.split text) as [|w ws] eqn:Hws; [done|].
    apply chunk_loop_stuck; [lia|]. unfold len. simpl. lia.
  - intros Hnil. exists 0%nat. unfold Chunker.chunk_text. by rewrite Hnil.
Qed.

Lemma chunk_text_termination_witness :
  (∃ chunks, Chunker.chunk_text 4 "a b c" 2 1 = Some chunks)
  ∧ Chunker.diverges "a b c" 2 2
  ∧ Chunker.returns "  " 2 2 [].
Proof.
  split; [|split].
  - apply (chunk_text_termination "a b c" 2 1). lia.
  - apply (chunk_text_termination "a b c" 2 2); [lia|]. vm_compute. discriminate.
  - apply (chunk_text_termination "  " 2 2). vm_compute. reflexivity.
Defined.

(** C6, against the claim: [chunk_text("a", size=1, overlap=1)] violates the
    precondition and is not rejected: it loops for ever. *)
Lemma chunk_text_overlap_eq_size_diverges : Chunker.diverges "a" 1 1.
Proof.
  intros fuel. unfold Chunker.chunk_text.
  change (Py.split "a") with ["a"%string].
  apply chunk_loop_stuck; [lia|]. unfold len. simpl. lia.
Qed.

(** ** Local flat index *)

Section LocalIndex.
Context {num : Numerics}.
Import VectorSearch.

Lemma upsert_step_embeddings start_idx l :
  ∀ st, (foldl (upsert_step start_idx) st l).1.1
        = st.1.1 ++ ((λ iv : Z * vector, iv.2.1.2) <$> l).
Proof.
  induction l as [|[i [[vid emb] meta]] l IH]; intros [[embs md] idm]; simpl.
  - by rewrite app_nil_r.
  - rewrite IH. simpl. by rewrite <- app_assoc.
Qed.

Lemma enumerate_embeddings (vectors : list vector) :
  ((λ iv : Z * vector, iv.2.1.2) <$> Py.enumerate vectors)
  = (λ v : vector, v.1.2) <$> vectors.
Proof.
  unfold Py.enumerate. apply list_eq. intros i.
  rewrite !list_lookup_fmap, list_lookup_imap.
  by destruct (vectors !! i).
Qed.

(** The rows handed to [np.array] are the embeddings, in order. *)
Lemma upsert_embeddings c (vectors : list vector) :
  (foldl (upsert_step (ntotal (index c))) ([], metadata c, id_mapping c)
     (Py.enumerate vectors)).1.1
  = (λ v : vector, v.1.2) <$> vectors.
Proof. by rewrite upsert_step_embeddings, enumerate_embeddings. Qed.

(** [np.array] followed by [index.add] succeeds only on rows that all
    have the length of the index. *)
Lemma add_rows_mismatch (ix : IndexFlatIP) (rows : list (list float32)) r :
  r ∈ rows → len r ≠ d ix →
  ∃ e, (x ← np_array rows; x ← normalize_L2 x; index_add ix x) = Raise e
       ∧ (e = AssertionError ∨ ∃ msg, e = ValueError msg).
Proof.
  intros Hin Hlen. destruct rows as [|r0 rest]; [by apply elem_of_nil in Hin|].
  unfold np_array.
  destruct (forallb _ rest) eqn:Hall.
  - simpl. case_decide as Hd; [|eauto].
    exfalso. apply Hlen. rewrite <- Hd.
    apply elem_of_cons in Hin as [->|Hin]; [done|].
    rewrite forallb_forall in Hall.
    apply list_elem_of_In, Hall, bool_decide_eq_true in Hin.
    unfold len. by rewrite Hin.
  - simpl. eauto.
Qed.

Lemma forallb_false_elem {A} (f : A → bool) (l : list A) :
  forallb f l = false → ∃ x, x ∈ l ∧ f x = false.
Proof.
  induction l as [|a l IH]; simpl; [done|].
  destruct (f a) eqn:Ha; simpl.
  - intros H. destruct (IH H) as (x & Hx & Hfx). exists x. split; [by right|done].
  - intros _. exists a. split; [by left|done].
Qed.

(** Which of the two errors it is: the ValueError of [np.array] when the
    rows differ in length among themselves, the AssertionError of
    [index.add] when they all have the same length, which is not that of
    the index. *)
Lemma add_rows_mismatch_kind (ix : IndexFlatIP) (rows : list (list float32)) r :
  r ∈ rows → len r ≠ d ix →
  ((∀ r', r' ∈ rows → length r' = length r)
   ∧ (x ← np_array rows; x ← normalize_L2 x; index_add ix x) = Raise AssertionError)
  ∨ ((∃ r', r' ∈ rows ∧ length r' ≠ length r)
     ∧ (x ← np_array rows; x ← normalize_L2 x; index_add ix x)
       = Raise (ValueError "setting an array element with a sequence")).
Proof.
  intros Hin Hlen. destruct rows as [|r0 rest]; [by apply elem_of_nil in Hin|].
  unfold np_array. destruct (forallb _ rest) eqn:Hall.
  - left.
    assert (∀ r', r' ∈ r0 :: rest → length r' = length r0) as Hsame.
    { intros r' Hr'. apply elem_of_cons in Hr' as [->|Hr']; [done|].
      rewrite forallb_forall in Hall.
      by apply list_elem_of_In, Hall, bool_decide_eq_true in Hr'. }
    split.
    + intros r' Hr'. by rewrite (Hsame r' Hr'), (Hsame r Hin).
    + simpl. rewrite decide_False; [done|].
      intros Hd. apply Hlen. rewrite <- Hd. unfold len. by rewrite (Hsame r Hin).
  - right. split; [|done].
    apply forallb_false_elem in Hall as (r' & Hr' & Hne).
    apply bool_decide_eq_false in Hne.
    destruct (decide (length r0 = length r)) as [Heq|Hne0].
    + exists r'. split; [by right|]. by rewrite <- Heq.
    + exists r0. split; [by left|done].
Qed.

(** C1 (as the code has it). An upsert in which some record's embedding
    length differs from the dimension of the local index raises: the
    array library's ValueError when the embedding lengths of the call
    differ among themselves, the vector store's AssertionError when they
    are all the same. The stored vectors, so the record count, and the
    files on disk are as before the call. *)
Theorem upsert_mismatch_raises_keeps_vectors
    (c : FAISSClient) (fs : disk) (vectors : list vector) (v : vector) :
  v ∈ vectors → len v.1.2 ≠ d (index c) →
  ∃ c' e, upsert c fs vectors = (c', fs, Raise e)
          ∧ ((∀ v' : vector, v' ∈ vectors → len v'.1.2 = len v.1.2)
             ∧ e = AssertionError
             ∨ (∃ v' : vector, v' ∈ vectors ∧ len v'.1.2 ≠ len v.1.2)
               ∧ e = ValueError "setting an array element with a sequence")
          ∧ index c' = index c
          ∧ ntotal (index c') = ntotal (index c).
Proof.
  intros Hin Hlen. unfold upsert.
  pose proof (upsert_embeddings c vectors) as Hembs.
  destruct (foldl _ _ _) as [[embs md] idm]. simpl in Hembs.
  assert (v.1.2 ∈ embs) as Hrow.
  { rewrite Hembs. apply list_elem_of_fmap. by exists v. }
  destruct (add_rows_mismatch_kind (index (with_mappings c md idm)) embs v.1.2
              Hrow Hlen) as [[Hall He]|[(r' & Hr' & Hne) He]]; rewrite He.
  - eexists _, _. split; [done|]. split; [|done]. left. split; [|done].
    intros v' Hv'. unfold len. f_equal. apply Hall.
    rewrite Hembs. apply list_elem_of_fmap. by exists v'.
  - eexists _, _. split; [done|]. split; [|done]. right. split; [|done].
    rewrite Hembs in Hr'. apply list_elem_of_fmap in Hr' as (v' & -> & Hv').
    exists v'. split; [done|]. unfold len. intros Heq. apply Hne.
    by apply Nat2Z.inj.
Qed.

(** A successful upsert appends one normalised row per record, whatever
    the ids are. *)
Lemma upsert_ok_appends (c c' : FAISSClient) (fs fs' : disk) (vectors : list vector) :
  upsert c fs vectors = (c', fs', Ok ()) →
  xb (index c') = xb (index c) ++ (normalize_L2_row <$> ((λ v : vector, v.1.2) <$> vectors))
  ∧ ntotal (index c') = ntotal (index c) + len vectors.
Proof.
  unfold upsert. pose proof (upsert_embeddings c vectors) as Hembs.
  destruct (foldl _ _ _) as [[embs md] idm]. simpl in Hembs. subst embs.
  destruct (_ ≫= _) as [ix|e] eqn:Hadd; [|done].
  intros [= <- _]. simpl.
  assert (xb ix = xb (index c)
                  ++ (normalize_L2_row <$> ((λ v : vector, v.1.2) <$> vectors))) as Hxb.
  { unfold np_array in Hadd.
    destruct ((λ v : vector, v.1.2) <$> vectors) as [|r rest]; [done|].
    destruct (forallb _ rest); [|done]. simpl in Hadd.
    case_decide; [|done]. by simplify_eq/=. }
  split; [exact Hxb|]. unfold ntotal, len. rewrite Hxb.
  rewrite length_app, !length_fmap. lia.
Qed.

(** *** Search results *)

Lemma insert_desc_length e l : length (insert_desc e l) = S (length l).
Proof.
  induction l as [|h t IH]; [done|]. simpl.
  destruct (score_gt h.1 e.1); simpl; by rewrite ?IH.
Qed.

Lemma insert_desc_Forall (P : float32 * Z → Prop) e l :
  P e → Forall P l → Forall P (insert_desc e l).
Proof.
  intros He. induction 1 as [|h t Hh Ht IH]; simpl.
  - by repeat constructor.
  - destruct (score_gt h.1 e.1); repeat constructor; done.
Qed.

Lemma sort_desc_length l : length (foldr insert_desc [] l) = length l.
Proof.
  induction l as [|e l IH]; [done|]. simpl.
  by rewrite insert_desc_length, IH.
Qed.

Lemma sort_desc_Forall (P : float32 * Z → Prop) l :
  Forall P l → Forall P (foldr insert_desc [] l).
Proof.
  induction 1; simpl; [constructor|]. by apply insert_desc_Forall.
Qed.

Lemma ranking_length ix q : length (ranking ix q) = length (xb ix).
Proof. unfold ranking. by rewrite sort_desc_length, length_imap. Qed.

(** Every label of the ranking is a position of the store. *)
Lemma ranking_labels ix q :
  Forall (λ e : float32 * Z, 0 ≤ e.2 < ntotal ix) (ranking ix q).
Proof.
  unfold ranking. apply sort_desc_Forall, Forall_lookup.
  intros i e He. rewrite list_lookup_imap in He.
  destruct (xb ix !! i) as [x|] eqn:Hx; [|done].
  apply lookup_lt_Some in Hx. simplify_eq/=. unfold ntotal, len. lia.
Qed.

Lemma search_row_length ix k q : 0 ≤ k → len (search_row ix k q) = k.
Proof.
  intros Hk. unfold search_row, len.
  rewrite length_app, length_replicate, length_take. lia.
Qed.

(** Asked for no more than it holds, the store fills every slot. *)
Lemma search_row_within ix k q :
  0 ≤ k ≤ ntotal ix → search_row ix k q = take (Z.to_nat k) (ranking ix q).
Proof.
  intros Hk. unfold search_row.
  rewrite length_take, ranking_length.
  unfold ntotal, len in Hk.
  replace (Z.to_nat k - Z.to_nat k `min` length (xb ix))%nat with 0%nat by lia.
  by rewrite app_nil_r.
Qed.

Lemma format_matches_length_le c incl found :
  (length (format_matches c incl found) ≤ length found)%nat.
Proof.
  induction found as [|[score idx] rest IH]; simpl; [done|].
  case_decide; simpl; lia.
Qed.

Lemma format_matches_lookup c incl found :
  Forall (λ e : float32 * Z, e.2 ≠ -1) found →
  length (format_matches c incl found) = length found
  ∧ ∀ i score idx, found !! i = Some (score, idx) →
      format_matches c incl found !! i
      = Some {| match_id := default (Py.str idx) (id_mapping c !! Py.str idx);
                match_score := score;
                match_metadata :=
                  if incl
                  then metadata c !! default (Py.str idx) (id_mapping c !! Py.str idx)
                  else None |}.
Proof.
  induction 1 as [|[score idx] rest Hne Hrest [IHlen IH]]; simpl.
  - split; [done|]. intros i ? ? Hi. by rewrite lookup_nil in Hi.
  - simpl in Hne. case_decide; [done|]. simpl. split; [by rewrite IHlen|].
    intros [|i] score' idx' Hi; simpl in *.
    + by simplify_eq.
    + by apply IH.
Qed.

(** [query] on an index that holds vectors, for a query of the index
    dimension and a positive [top_k]. *)
Lemma query_nonempty c embedding top_k incl :
  ntotal (index c) ≠ 0 → len embedding = d (index c) → 0 < top_k →
  query c embedding top_k incl
  = Ok (format_matches c incl
          (take (Z.to_nat (Z.min top_k (ntotal (index c))))
             (ranking (index c) (normalize_L2_row embedding)))).
Proof.
  intros Hne Hdim Hk. unfold query.
  case_decide; [done|]. simpl.
  pose proof (len_nonneg (xb (index c))) as Hn. fold (ntotal (index c)) in Hn.
  rewrite decide_True by done.
  rewrite decide_True by lia. simpl.
  by rewrite search_row_within by lia.
Qed.

Lemma ranking_take_labels ix q k :
  Forall (λ e : float32 * Z, e.2 ≠ -1) (take k (ranking ix q)).
Proof.
  apply Forall_take. eapply Forall_impl; [apply ranking_labels|].
  simpl. intros e He. lia.
Qed.

(** C7 (as the code has it). On the local index: an empty index answers
    every query, whatever the embedding and [top_k], with the empty list
    and no error; a query that returns gives at most [max(0, top_k)]
    matches and at most as many as the index holds; a query with an
    embedding of the index dimension and a positive [top_k] does return,
    with exactly [min(top_k, number of stored vectors)] matches; and on an
    index that holds a vector, a query with an embedding of another length
    or with [top_k] zero or negative raises the vector store's
    AssertionError. The client of the managed index hands the embedding
    and [top_k] to the service and returns what the service answers,
    matches or error, as it is. *)
Theorem query_at_most_top_k
    (c : FAISSClient) (embedding : list float32) (top_k : Z) (incl : bool) :
  (ntotal (index c) = 0 → query c embedding top_k incl = Ok [])
  ∧ (∀ ms, query c embedding top_k incl = Ok ms →
       len ms ≤ Z.max 0 top_k ∧ len ms ≤ ntotal (index c))
  ∧ (len embedding = d (index c) → 0 < top_k →
       ∃ ms, query c embedding top_k incl = Ok ms
             ∧ len ms = Z.min top_k (ntotal (index c)))
  ∧ (ntotal (index c) ≠ 0 → len embedding ≠ d (index c) ∨ top_k ≤ 0 →
       query c embedding top_k incl = Raise AssertionError)
  ∧ (∀ (svc : remote_index) (pc : PineconeClient) (r : remote_state svc),
       pinecone_query svc pc r embedding top_k incl
       = remote_query svc r (pc_index_name pc) embedding top_k incl).
Proof.
  pose proof (len_nonneg (xb (index c))) as Hn. fold (ntotal (index c)) in Hn.
  split; [|split; [|split; [|split]]].
  - intros H0. unfold query. by rewrite decide_True.
  - intros ms. unfold query. case_decide as H0.
    + intros [= <-]. unfold len. simpl. lia.
    + simpl. case_decide; [|done]. case_decide as Hk; [|done]. simpl.
      intros [= <-].
      pose proof (format_matches_length_le c incl
        (search_row (index c) (Z.min top_k (ntotal (index c)))
           (normalize_L2_row embedding))) as Hle.
      pose proof (search_row_length (index c) (Z.min top_k (ntotal (index c)))
        (normalize_L2_row embedding) ltac:(lia)) as Hlen.
      unfold len in *. lia.
  - intros Hdim Hk. destruct (decide (ntotal (index c) = 0)) as [H0|H0].
    + exists []. unfold query. rewrite decide_True by done.
      split; [done|]. unfold len. simpl. lia.
    + rewrite query_nonempty by done. eexists. split; [done|].
      destruct (format_matches_lookup c incl _
                  (ranking_take_labels (index c) (normalize_L2_row embedding)
                     (Z.to_nat (Z.min top_k (ntotal (index c)))))) as [Hlen _].
      unfold len. rewrite Hlen, length_take, ranking_length.
      unfold ntotal, len in *. lia.
  - intros H0 Hbad. unfold query. rewrite decide_False by done. simpl.
    destruct (decide (len embedding = d (index c))) as [Hd|Hd]; [|done].
    rewrite decide_False; [done|]. destruct Hbad; [done|lia].
  - done.
Qed.

(** C10. On a local index that holds vectors, a query of the index
    dimension with a positive [top_k] returns one match per position the
    store found, in the store's order. The match of a position without an
    entry in the position-to-id mapping has the decimal string of the
    position as its id (a mapped position has the mapped id); its metadata
    is left out when the id has no entry in the metadata mapping, or when
    metadata was not asked for, and is the stored entry otherwise. *)
Theorem query_unmapped_position
    (c : FAISSClient) (embedding : list float32) (top_k : Z) (incl : bool) :
  ntotal (index c) ≠ 0 → len embedding = d (index c) → 0 < top_k →
  let found := search_row (index c) (Z.min top_k (ntotal (index c)))
                 (normalize_L2_row embedding) in
  ∃ ms, query c embedding top_k incl = Ok ms
    ∧ length ms = length found
    ∧ ∀ i score idx, found !! i = Some (score, idx) →
        ∃ m, ms !! i = Some m
          ∧ match_score m = score
          ∧ (id_mapping c !! Py.str idx = None → match_id m = Py.str idx)
          ∧ (∀ oid, id_mapping c !! Py.str idx = Some oid → match_id m = oid)
          ∧ (metadata c !! match_id m = None → match_metadata m = None)
          ∧ (incl = false → match_metadata m = None)
          ∧ (incl = true → match_metadata m = metadata c !! match_id m).
Proof.
  intros Hne Hdim Hk found.
  pose proof (len_nonneg (xb (index c))) as Hn. fold (ntotal (index c)) in Hn.
  subst found. rewrite search_row_within by lia.
  rewrite query_nonempty by done.
  destruct (format_matches_lookup c incl _
              (ranking_take_labels (index c) (normalize_L2_row embedding)
                 (Z.to_nat (Z.min top_k (ntotal (index c)))))) as [Hlen Hlook].
  eexists. split; [done|]. split; [done|].
  intros i score idx Hi. apply Hlook in Hi.
  eexists. split; [exact Hi|]. simpl.
  split; [done|]. split; [by intros ->|]. split; [by intros oid ->|].
  split; [intros Hmd; destruct incl; done|].
  split; by intros ->.
Qed.

(** C4 (as the code has it). When the vector store file of the index
    exists, the constructor loads the store and the two mappings as they
    are on disk. It fails exactly when one of the two mapping files is
    missing; the number of stored vectors is not compared with the size
    of the position-to-id mapping. *)
Theorem FAISSClient_init_loads_as_found
    (fs : disk) (name : string) (dim : Z) (ix : IndexFlatIP) :
  faiss_files fs !! (name +:+ ".faiss") = Some ix →
  match metadata_files fs !! (name +:+ "_metadata.json"),
        id_mapping_files fs !! (name +:+ "_id_mapping.json") with
  | Some md, Some idm =>
      ∃ c, FAISSClient_init fs name dim = Ok c
           ∧ index c = ix ∧ metadata c = md ∧ id_mapping c = idm
  | None, _ =>
      FAISSClient_init fs name dim
      = Raise (FileNotFoundError (name +:+ "_metadata.json"))
  | Some _, None =>
      FAISSClient_init fs name dim
      = Raise (FileNotFoundError (name +:+ "_id_mapping.json"))
  end.
Proof.
  intros Hix. unfold FAISSClient_init, json_load. rewrite Hix.
  destruct (metadata_files fs !! _) as [md|]; [|done].
  destruct (id_mapping_files fs !! _) as [idm|]; [|done].
  simpl. eauto.
Qed.

End LocalIndex.

Lemma upsert_mismatch_witness :
  (∃ c',
     VectorSearch.upsert Exact.fresh Exact.empty_disk
       [("a"%string, [1; 0; 0], Exact.text_is "x")]
     = (c', Exact.empty_disk, Raise AssertionError)
     ∧ VectorSearch.index c' = VectorSearch.index Exact.fresh)
  ∧ (∃ c',
       VectorSearch.upsert Exact.fresh Exact.empty_disk
         [("a"%string, [1; 0], Exact.text_is "x");
          ("b"%string, [1; 0; 0], Exact.text_is "y")]
       = (c', Exact.empty_disk,
          Raise (ValueError "setting an array element with a sequence"))
       ∧ VectorSearch.index c' = VectorSearch.index Exact.fresh).
Proof.
  split.
  - destruct (upsert_mismatch_raises_keeps_vectors (num := Exact.numerics)
                Exact.fresh Exact.empty_disk
                [("a"%string, [1; 0; 0], Exact.text_is "x")]
                ("a"%string, [1; 0; 0], Exact.text_is "x"))
      as (c' & e & Hup & [[_ He]|[(v' & Hv' & Hne) _]] & Hix & _).
    + apply list_elem_of_here.
    + vm_compute. discriminate.
    + exists c'. rewrite He in Hup. split; [exact Hup|exact Hix].
    + apply list_elem_of_singleton in Hv'. subst v'. exfalso. by apply Hne.
  - destruct (upsert_mismatch_raises_keeps_vectors (num := Exact.numerics)
                Exact.fresh Exact.empty_disk
                [("a"%string, [1; 0], Exact.text_is "x");
                 ("b"%string, [1; 0; 0], Exact.text_is "y")]
                ("b"%string, [1; 0; 0], Exact.text_is "y"))
      as (c' & e & Hup & [[Hall _]|[_ He]] & Hix & _).
    + apply list_elem_of_further, list_elem_of_here.
    + vm_compute. discriminate.
    + exfalso.
      specialize (Hall ("a"%string, [1; 0], Exact.text_is "x") (list_elem_of_here _ _)).
      vm_compute in Hall. discriminate Hall.
    + exists c'. rewrite He in Hup. split; [exact Hup|exact Hix].
Defined.

(** C1, against the claim: on a new local index of dimension 2, upserting
    one record with an embedding of length 3 raises the vector store's
    AssertionError after the metadata of the record and its position-to-id
    entry have been written into the client. *)
Lemma upsert_mismatch_writes_mappings :
  VectorSearch.upsert Exact.fresh Exact.empty_disk
    [("a"%string, [1; 0; 0], Exact.text_is "x")]
  = (VectorSearch.with_mappings Exact.fresh
       {[ "a"%string := Exact.text_is "x" ]} {[ "0"%string := "a"%string ]},
     Exact.empty_disk, Raise AssertionError)
  ∧ VectorSearch.metadata Exact.fresh !! "a"%string = None
  ∧ VectorSearch.id_mapping Exact.fresh !! "0"%string = None.
Proof. vm_compute. done. Qed.

Lemma query_at_most_top_k_witness :
  VectorSearch.query Exact.fresh [1; 0; 0] 3 true = Ok []
  ∧ (∃ ms, VectorSearch.query Exact.stale [1; 0] 5 true = Ok ms
           ∧ len ms = Z.min 5 (VectorSearch.ntotal (VectorSearch.index Exact.stale)))
  ∧ VectorSearch.query Exact.stale [1; 0; 0] 5 true = Raise AssertionError
  ∧ VectorSearch.query Exact.stale [1; 0] 0 true = Raise AssertionError.
Proof.
  split; [|split; [|split]].
  - by apply (query_at_most_top_k (num := Exact.numerics) Exact.fresh [1; 0; 0] 3 true).
  - apply (query_at_most_top_k (num := Exact.numerics) Exact.stale [1; 0] 5 true).
    + reflexivity.
    + lia.
  - apply (query_at_most_top_k (num := Exact.numerics) Exact.stale [1; 0; 0] 5 true).
    + vm_compute. discriminate.
    + left. vm_compute. discriminate.
  - apply (query_at_most_top_k (num := Exact.numerics) Exact.stale [1; 0] 0 true).
    + vm_compute. discriminate.
    + right. lia.
Defined.

(** C7, against the claim: on a local index of dimension 2 that holds one
    vector, a query with an embedding of length 3, and a query with
    [top_k = 0], raise AssertionError instead of returning matches; and
    the client of a managed index whose service answers with two matches
    returns both for [top_k = 1]. *)
Lemma query_raises_or_exceeds_top_k :
  VectorSearch.ntotal (VectorSearch.index Exact.stale) = 1
  ∧ VectorSearch.query Exact.stale [1; 0; 0] 5 true = Raise AssertionError
  ∧ VectorSearch.query Exact.stale [1; 0] 0 true = Raise AssertionError
  ∧ VectorSearch.pinecone_query Exact.generous_remote Exact.managed_policy_index tt
      [1; 0] 1 true = Ok Exact.two_matches
  ∧ len Exact.two_matches = 2.
Proof. vm_compute. done. Qed.

Lemma query_unmapped_position_witness :
  ∃ ms, VectorSearch.query Exact.stale [1; 0] 5 true = Ok ms
    ∧ ∃ m, ms !! 0%nat = Some m
        ∧ VectorSearch.match_id m = "0"%string
        ∧ VectorSearch.match_metadata m = None.
Proof.
  destruct (query_unmapped_position (num := Exact.numerics) Exact.stale [1; 0] 5 true)
    as (ms & Hq & _ & Hms).
  - vm_compute. discriminate.
  - reflexivity.
  - lia.
  - exists ms. split; [exact Hq|].
    destruct (Hms 0%nat 0 0) as (m & Hm & _ & Hid & _ & Hmd & _); [reflexivity|].
    exists m. split; [exact Hm|].
    assert (VectorSearch.match_id m = "0"%string) as Hid' by (by apply Hid).
    split; [exact Hid'|]. apply Hmd. by rewrite Hid'.
Defined.

Lemma FAISSClient_init_loads_witness :
  ∃ c, VectorSearch.FAISSClient_init Exact.stale_disk "policy-index" 2 = Ok c
       ∧ VectorSearch.index c = Exact.one_vector
       ∧ VectorSearch.metadata c = ∅
       ∧ VectorSearch.id_mapping c = ∅.
Proof.
  apply (FAISSClient_init_loads_as_found (num := Exact.numerics)
           Exact.stale_disk "policy-index" 2 Exact.one_vector).
  reflexivity.
Defined.

(** C4, against the claim: from a disk on which the vector store holds one
    vector and the position-to-id mapping is empty, the constructor returns
    a client. *)
Lemma FAISSClient_init_accepts_inconsistent_state :
  VectorSearch.FAISSClient_init Exact.stale_disk "policy-index" 2 = Ok Exact.stale
  ∧ VectorSearch.ntotal (VectorSearch.index Exact.stale) = 1
  ∧ size (VectorSearch.id_mapping Exact.stale) = 0%nat.
Proof. vm_compute. done. Qed.


(** ** Loops that collect results *)

Lemma collect_Ok {A} (steps : list (result A)) (vs : list A) :
  collect steps = Ok vs ↔ steps = Ok <$> vs.
Proof.
  revert vs. induction steps as [|t ts IH]; intros vs; simpl.
  - split; [by intros [= <-]|]. by destruct vs.
  - destruct t as [a|e].
    + destruct (collect ts) as [rest|e] eqn:Hts.
      * split.
        -- intros [= <-]. simpl. f_equal. by apply IH.
        -- destruct vs as [|v vs]; [done|]. intros [= -> Hrest].
           apply IH in Hrest. by simplify_eq.
      * split; [done|]. destruct vs as [|v vs]; [done|]. intros [= -> Hrest].
        apply IH in Hrest. done.
    + split; [done|]. by destruct vs.
Qed.



(** ** Embedding gateway *)

Section Embedding.
Context {num : Numerics}.
Import EmbeddingEngine.



End Embedding.



(** ** Index creation and overwriting *)

(** C2, on the code. On a new local index of dimension 2, upserting id "a"
    with vector (1,0) and then id "a" again with vector (0,1) succeeds twice
    and leaves two stored vectors, at positions 0 and 1, both mapped to "a":
    a query for (1,0) with [top_k = 2] returns two matches with id "a", the
    first of them scored by the old vector and both carrying the new
    metadata. *)
Theorem upsert_same_id_keeps_both_vectors :
  let r1 := VectorSearch.upsert Exact.fresh Exact.empty_disk
              [("a"%string, [1; 0], Exact.text_is "old")] in
  let r2 := VectorSearch.upsert r1.1.1 r1.1.2
              [("a"%string, [0; 1], Exact.text_is "new")] in
  r1.2 = Ok () ∧ r2.2 = Ok ()
  ∧ VectorSearch.ntotal (VectorSearch.index r2.1.1) = 2
  ∧ VectorSearch.id_mapping r2.1.1 !! "0"%string = Some "a"%string
  ∧ VectorSearch.id_mapping r2.1.1 !! "1"%string = Some "a"%string
  ∧ VectorSearch.query r2.1.1 [1; 0] 2 true
    = Ok [ Exact.found "a" 1 (Some (Exact.text_is "new"));
           Exact.found "a" 0 (Some (Exact.text_is "new")) ].
Proof. vm_compute. repeat split. Qed.

(** C3, on the code. With the key of the managed service set and no index
    hosted yet, the factory lists the indexes and creates [policy-index]
    with cosine metric and dimension 1536, whatever dimension it was given,
    768 of the default settings included; without the key the same
    dimension reaches the local index. *)
Theorem create_vector_client_managed_dimension (dimension : Z) :
  VectorSearch.create_vector_client true true Exact.environ_with_key
    Exact.no_indexes Exact.empty_disk "policy-index" dimension
  = ({| VectorSearch.reachable := true;
        VectorSearch.hosted := [Exact.created_index] |},
     Ok (VectorSearch.UsePinecone
           {| VectorSearch.pc_api_key := "key";
              VectorSearch.pc_index_name := "policy-index" |}))
  ∧ VectorSearch.idx_dimension Exact.created_index = 1536
  ∧ VectorSearch.idx_metric Exact.created_index = "cosine"%string
  ∧ Config.EMBEDDING_DIMENSION Config.default_settings = 768
  ∧ (Endpoints.startup true true Exact.environ_with_key Exact.no_indexes
       Exact.empty_disk Config.default_settings).1
    = {| VectorSearch.reachable := true;
         VectorSearch.hosted := [Exact.created_index] |}
  ∧ ∃ c, VectorSearch.create_vector_client true true ∅ Exact.no_indexes
           Exact.empty_disk "policy-index" dimension
         = (Exact.no_indexes, Ok (VectorSearch.UseFAISS c))
         ∧ VectorSearch.d (VectorSearch.index c) = dimension.
Proof.
  split; [reflexivity|]. split; [reflexivity|]. split; [reflexivity|].
  split; [reflexivity|]. split; [reflexivity|].
  eexists. split; reflexivity.
Qed.

(** ** Request handler *)

(** With the default size and overlap the chunker returns, and
    [chunk_text_default] is its result. *)
Lemma chunk_text_default_returns text :
  Chunker.returns text 300 50 (Chunker.chunk_text_default text).
Proof.
  exists (S (length (Py.split text))). unfold Chunker.chunk_text_default.
  by rewrite chunk_text_windows by lia.
Qed.

Section Handler.
Context {num : Numerics}.
Import Endpoints.

(** What is raised inside the [try] block leaves the handler as an
    HTTPException with status 500. *)
Lemma run_query_raise_in_try (w : collaborators) (settings : Config.Settings)
    (st st' : state w) (payload : QueryRequest) (path doc_type : string) (e : exn) :
  urlparse w (documents payload) = Parsed path →
  doc_type_of (Py.lower path) = Some doc_type →
  process w settings st payload doc_type = (st', Raise e) →
  run_query w settings st payload
  = (st', Raise (HTTPException 500
                   ("Failed to process request: " +:+ exception_str w e))).
Proof. intros Hurl Hdt Hp. unfold run_query. by rewrite Hurl, Hdt, Hp. Qed.

(** C9, on the code. For a request for a PDF or DOCX document whose
    extracted text is empty or white space only, or whose chunking gives no
    chunk, the handler raises HTTPException 422 inside its [try] block, and
    its [except Exception] clause turns it into HTTPException 500: the
    caller gets status 500, not 422, and the stores are untouched. *)
Theorem run_query_no_content_status
    (w : collaborators) (settings : Config.Settings) (st : state w)
    (payload : QueryRequest) (path doc_type text : string) :
  urlparse w (documents payload) = Parsed path →
  doc_type_of (Py.lower path) = Some doc_type →
  extract_text w (documents payload) doc_type = Ok text →
  Py.strip_is_empty text = true ∨ Chunker.chunk_text_default text = [] →
  ∃ detail,
    process w settings st payload doc_type = (st, Raise (HTTPException 422 detail))
    ∧ run_query w settings st payload
      = (st, Raise (HTTPException 500
                      ("Failed to process request: "
                       +:+ exception_str w (HTTPException 422 detail))))
    ∧ http_status (run_query w settings st payload).2 = 500.
Proof.
  intros Hurl Hdt Htext Hnone.
  assert (∃ detail, process w settings st payload doc_type
                    = (st, Raise (HTTPException 422 detail))) as [detail Hp].
  { unfold process. rewrite Htext.
    destruct (Py.strip_is_empty text) eqn:Hstrip; [eauto|].
    destruct Hnone as [?|Hchunks]; [done|]. rewrite Hchunks. eauto. }
  exists detail. split; [done|].
  rewrite (run_query_raise_in_try w settings st st payload path doc_type _
             Hurl Hdt Hp).
  done.
Qed.

End Handler.

Lemma run_query_no_content_witness :
  Endpoints.run_query Exact.blank_document Config.default_settings
    Exact.blank_state Exact.blank_request
  = (Exact.blank_state,
     Raise (HTTPException 500
              "Failed to process request: 422: Failed to extract any text from the document."))
  ∧ Endpoints.http_status
      (Endpoints.run_query Exact.blank_document Config.default_settings
         Exact.blank_state Exact.blank_request).2 = 500.
Proof.
  destruct (run_query_no_content_status (num := Exact.numerics)
              Exact.blank_document Config.default_settings Exact.blank_state
              Exact.blank_request "/assets/policy.PDF" "pdf"
              (String " " (String " " (String "010" EmptyString))))
    as (detail & Hp & Hq & Hs).
  - reflexivity.
  - vm_compute. reflexivity.
  - reflexivity.
  - left. vm_compute. reflexivity.
  - split; [|exact Hs]. rewrite Hq. vm_compute in Hp.
    injection Hp as <-. vm_compute. reflexivity.
Defined.

(** * Further properties *)

(** ** Slices *)

Lemma slice_lookup {A} (l : list A) (a b : Z) (k : nat) :
  0 ≤ a → 0 ≤ b →
  Py.slice l a b !! k
  = if decide (a + Z.of_nat k < b) then l !! (Z.to_nat a + k)%nat else None.
Proof.
  intros Ha Hb. unfold Py.slice, Py.clamp.
  pose proof (len_nonneg l) as Hn.
  rewrite !decide_False by lia.
  destruct (decide (Z.of_nat k < Z.min b (len l) - Z.min a (len l))) as [Hk|Hk].
  - rewrite lookup_take_lt by lia. rewrite lookup_drop.
    rewrite decide_True by lia. f_equal. lia.
  - rewrite lookup_take_ge by lia.
    case_decide as Hab; [|done].
    symmetry. apply lookup_ge_None. unfold len in *. lia.
Qed.

Lemma slice_words (ws : list string) (a b : Z) :
  Forall Py.is_word ws → Forall Py.is_word (Py.slice ws a b).
Proof. intros Hws. unfold Py.slice. by apply Forall_take, Forall_drop. Qed.

Lemma windows_length words size step k start :
  length (Chunker.windows words size step k start) = k.
Proof. revert start. induction k as [|k IH]; intros start; simpl; by rewrite ?IH. Qed.

Lemma windows_lookup words size step k start (j : nat) :
  (j < k)%nat →
  Chunker.windows words size step k start !! j
  = Some (Py.slice words (start + Z.of_nat j * step)
            (Z.min (start + Z.of_nat j * step + size) (len words))).
Proof.
  revert start j. induction k as [|k IH]; intros start j Hj; [lia|].
  destruct j as [|j].
  - replace (start + Z.of_nat 0 * step) with start by lia. done.
  - replace (start + Z.of_nat (S j) * step)
      with (start + step + Z.of_nat j * step) by lia.
    rewrite <- IH by lia. done.
Qed.

Lemma passes_ceiling (n step : Z) :
  0 ≤ n → 0 < step →
  Z.of_nat (Chunker.passes n step 0) = (n + step - 1) / step.
Proof.
  intros Hn Hstep. unfold Chunker.passes. rewrite Z.sub_0_r.
  apply Z2Nat.id, Z.div_pos; lia.
Qed.

(** A window below the number of passes starts inside the word list. *)
Lemma window_start_in_range (n step : Z) (j : nat) :
  0 ≤ n → 0 < step →
  (j < Chunker.passes n step 0)%nat ↔ Z.of_nat j * step < n.
Proof.
  intros Hn Hstep.
  pose proof (passes_ceiling n step Hn Hstep) as Hp.
  pose proof (Z.div_mod (n + step - 1) step ltac:(lia)) as Hdm.
  pose proof (Z.mod_pos_bound (n + step - 1) step Hstep) as Hm.
  split; intros H; nia.
Qed.

Lemma slice_length {A} (l : list A) (a b : Z) :
  0 ≤ a → 0 ≤ b →
  len (Py.slice l a b) = Z.max 0 (Z.min b (len l) - Z.min a (len l)).
Proof.
  intros Ha Hb. unfold Py.slice, Py.clamp, len.
  rewrite !decide_False by lia.
  rewrite length_take, length_drop. lia.
Qed.

Lemma prefix_of_lookup {A} (l1 l2 : list A) :
  (∀ k x, l1 !! k = Some x → l2 !! k = Some x) → l1 `prefix_of` l2.
Proof.
  revert l2. induction l1 as [|x l1 IH]; intros l2 H.
  - apply prefix_nil.
  - destruct l2 as [|y l2]; [by specialize (H 0%nat x eq_refl)|].
    pose proof (H 0%nat x eq_refl) as [= ->].
    apply prefix_cons, IH. intros k z Hk. by apply (H (S k)).
Qed.

(** ** Chunker: the shape of the result *)

(** The result of [chunk_text] under [overlap < size], as a list. *)
Lemma chunk_text_result text size overlap chunks :
  overlap < size →
  Chunker.returns text size overlap chunks →
  chunks = Py.join " " <$>
             Chunker.windows (Py.split text) size (size - overlap)
               (Chunker.passes (len (Py.split text)) (size - overlap) 0) 0.
Proof.
  intros Hlt Hret. eapply returns_functional; [exact Hret|].
  by apply chunk_text_returns_windows.
Qed.

Lemma chunk_text_lookup text size overlap chunks (j : nat) :
  overlap < size →
  Chunker.returns text size overlap chunks →
  (j < length chunks)%nat →
  chunks !! j
  = Some (Py.join " "
            (Py.slice (Py.split text) (Z.of_nat j * (size - overlap))
               (Z.min (Z.of_nat j * (size - overlap) + size) (len (Py.split text))))).
Proof.
  intros Hlt Hret Hj.
  rewrite (chunk_text_result text size overlap chunks Hlt Hret) in *.
  rewrite length_fmap, windows_length in Hj.
  rewrite list_lookup_fmap, windows_lookup by done. simpl.
  by rewrite !Z.add_0_l.
Qed.

Lemma chunk_text_length text size overlap chunks :
  overlap < size →
  Chunker.returns text size overlap chunks →
  Z.of_nat (length chunks)
  = (len (Py.split text) + (size - overlap) - 1) / (size - overlap).
Proof.
  intros Hlt Hret.
  rewrite (chunk_text_result text size overlap chunks Hlt Hret).
  rewrite length_fmap, windows_length.
  apply passes_ceiling; [apply len_nonneg | lia].
Qed.

(** X1. With [overlap < size], [chunk_text] returns
    [ceil(n / (size - overlap))] chunks for a text of [n] words. Chunk [j]
    is the join of the words from position [j * (size - overlap)] up to
    [size] words further or the end of the text, and splitting the chunk
    gives back exactly those words. *)
Theorem chunk_text_chunks (text : string) (size overlap : Z) :
  overlap < size →
  let ws := Py.split text in
  let step := size - overlap in
  ∃ chunks,
    Chunker.returns text size overlap chunks
    ∧ Z.of_nat (length chunks) = (len ws + step - 1) / step
    ∧ ∀ j : nat, (j < length chunks)%nat →
        let window :=
          Py.slice ws (Z.of_nat j * step) (Z.min (Z.of_nat j * step + size) (len ws)) in
        chunks !! j = Some (Py.join " " window)
        ∧ Py.split (Py.join " " window) = window.
Proof.
  intros Hlt ws step.
  pose proof (chunk_text_returns_windows text size overlap Hlt) as Hret.
  eexists. split; [exact Hret|]. split.
  - by apply chunk_text_length.
  - intros j Hj window. split.
    + by apply chunk_text_lookup.
    + apply split_join, slice_words, split_words.
Qed.

(** X2. With [0 <= overlap < size] no word is
    lost: word [i] of the text is word [i mod step] of chunk [i / step],
    where [step = size - overlap]. *)
Theorem chunk_text_covers_every_word
    (text : string) (size overlap : Z) (chunks : list string) (i : nat) (w : string) :
  0 ≤ overlap < size →
  Chunker.returns text size overlap chunks →
  Py.split text !! i = Some w →
  let step := size - overlap in
  ∃ chunk,
    chunks !! Z.to_nat (Z.of_nat i / step) = Some chunk
    ∧ Py.split chunk !! Z.to_nat (Z.of_nat i mod step) = Some w.
Proof.
  intros Hso Hret Hi step.
  assert (0 < step) as Hstep by (subst step; lia).
  pose proof (lookup_lt_Some _ _ _ Hi) as Hin.
  pose proof (Z.div_mod (Z.of_nat i) step ltac:(lia)) as Hdm.
  pose proof (Z.mod_pos_bound (Z.of_nat i) step Hstep) as Hm.
  assert (0 ≤ Z.of_nat i / step) as Hq by (apply Z.div_pos; lia).
  set (j := Z.to_nat (Z.of_nat i / step)).
  assert (Z.of_nat j = Z.of_nat i / step) as Hj by (subst j; lia).
  assert (j < length chunks)%nat as Hjlt.
  { rewrite (chunk_text_result text size overlap chunks ltac:(lia) Hret).
    rewrite length_fmap, windows_length.
    apply window_start_in_range; [apply len_nonneg | done |].
    fold step. unfold len. nia. }
  rewrite (chunk_text_lookup text size overlap chunks j ltac:(lia) Hret Hjlt).
  eexists. split; [done|].
  rewrite split_join by apply slice_words, split_words.
  fold step. rewrite slice_lookup by (unfold len; lia).
  rewrite decide_True by (unfold len; lia).
  rewrite <- Hi. f_equal. lia.
Qed.

(** X3. With [0 <= overlap < size], two
    consecutive chunks share words: what is left of a chunk after its first
    [size - overlap] words is a prefix of the next chunk. These are at most
    [overlap] words, and exactly [overlap] when the chunk has [size]
    words. *)
Theorem chunk_text_consecutive_overlap
    (text : string) (size overlap : Z) (chunks : list string) (j : nat) (c1 c2 : string) :
  0 ≤ overlap < size →
  Chunker.returns text size overlap chunks →
  chunks !! j = Some c1 → chunks !! S j = Some c2 →
  let step := Z.to_nat (size - overlap) in
  drop step (Py.split c1) `prefix_of` Py.split c2
  ∧ len (drop step (Py.split c1)) ≤ overlap
  ∧ (len (Py.split c1) = size → len (drop step (Py.split c1)) = overlap).
Proof.
  intros Hso Hret H1 H2 step.
  pose proof (lookup_lt_Some _ _ _ H1) as Hj1.
  pose proof (lookup_lt_Some _ _ _ H2) as Hj2.
  rewrite (chunk_text_lookup text size overlap chunks j ltac:(lia) Hret Hj1) in H1.
  rewrite (chunk_text_lookup text size overlap chunks (S j) ltac:(lia) Hret Hj2) in H2.
  simplify_eq.
  rewrite !split_join by apply slice_words, split_words.
  pose proof (len_nonneg (Py.split text)) as Hn.
  assert (Z.of_nat (S j) * (size - overlap) < len (Py.split text)) as Hnext.
  { apply window_start_in_range; [done | lia |].
    rewrite (chunk_text_result text size overlap chunks ltac:(lia) Hret) in Hj2.
    by rewrite length_fmap, windows_length in Hj2. }
  set (n := len (Py.split text)) in *.
  set (a := Z.of_nat j * (size - overlap)).
  assert (0 ≤ a) as Ha by (subst a; nia).
  assert (Z.of_nat (S j) * (size - overlap) = a + (size - overlap)) as Ha'
    by (subst a; lia).
  rewrite Ha' in *.
  assert (len (drop step (Py.slice (Py.split text) a (Z.min (a + size) n)))
          = Z.min (a + size) n - (a + (size - overlap))) as Hlen.
  { unfold len. rewrite length_drop.
    pose proof (slice_length (Py.split text) a (Z.min (a + size) n)
                  ltac:(lia) ltac:(lia)) as Hs.
    fold n in Hs. unfold len in Hs. subst step. lia. }
  split; [|split].
  - apply prefix_of_lookup. intros k x.
    rewrite lookup_drop, !slice_lookup by lia.
    subst step. repeat case_decide; try done; try lia.
    intros <-. f_equal. lia.
  - lia.
  - intros Hfull. rewrite Hlen.
    rewrite slice_length in Hfull by lia. fold n in Hfull. lia.
Qed.

(** X4. With [overlap < size], a text with a word
    gives exactly one chunk if and only if it has at most [size - overlap]
    words (so a text of more words, even one of at most [size] words, gets a
    further chunk); with [overlap >= 0] that single chunk is all the words
    joined by single blanks. *)
Theorem chunk_text_single_chunk
    (text : string) (size overlap : Z) (chunks : list string) :
  overlap < size → Py.split text ≠ [] →
  Chunker.returns text size overlap chunks →
  (length chunks = 1%nat ↔ len (Py.split text) ≤ size - overlap)
  ∧ (0 ≤ overlap → len (Py.split text) ≤ size - overlap →
     chunks = [Py.join " " (Py.split text)]).
Proof.
  intros Hlt Hne Hret.
  pose proof (chunk_text_length text size overlap chunks Hlt Hret) as Hlen.
  assert (0 < len (Py.split text)) as Hn.
  { unfold len. destruct (Py.split text); [done|]. simpl. lia. }
  set (n := len (Py.split text)) in *. set (step := size - overlap) in *.
  assert (0 < step) as Hstep by (subst step; lia).
  pose proof (Z.div_mod (n + step - 1) step ltac:(lia)) as Hdm.
  pose proof (Z.mod_pos_bound (n + step - 1) step Hstep) as Hm.
  assert (length chunks = 1%nat ↔ n ≤ step) as Hone by (split; intros; nia).
  split; [exact Hone|].
  intros Ho Hle. apply Hone in Hle as Hl1.
  pose proof (chunk_text_lookup text size overlap chunks 0 Hlt Hret ltac:(lia)) as H0.
  change (Z.of_nat 0 * (size - overlap)) with 0 in H0.
  fold n in H0. rewrite Z.add_0_l, Z.min_r in H0 by (subst step; lia).
  subst n. rewrite slice_suffix in H0 by lia. simpl in H0.
  destruct chunks as [|c [|c' chunks]]; simpl in *; try lia.
  by simplify_eq.
Qed.

(** ** QueryService._chunk_text *)

Lemma _chunk_text_loop_chunk_loop fuel words :
  ∀ start chunks,
  QueryService._chunk_text_loop fuel words start chunks
  = Chunker.chunk_loop fuel words 300 50 start chunks.
Proof.
  induction fuel as [|fuel IH]; intros start chunks; [done|].
  simpl. case_decide; [|done]. apply IH.
Qed.

(** X5. [QueryService._chunk_text] returns, on
    every text, what [chunk_text] returns with its default [size = 300] and
    [overlap = 50]. *)
Theorem _chunk_text_is_chunk_text (text : string) :
  QueryService._chunk_text (S (length (Py.split text))) text
  = Some (Chunker.chunk_text_default text)
  ∧ Chunker.returns text 300 50 (Chunker.chunk_text_default text).
Proof.
  split; [|apply chunk_text_default_returns].
  unfold QueryService._chunk_text, Chunker.chunk_text_default.
  rewrite _chunk_text_loop_chunk_loop.
  unfold Chunker.chunk_text.
  destruct (Py.split text) as [|w ws] eqn:Hws; [done|].
  pose proof (chunk_text_windows text 300 50 ltac:(lia)) as Hw.
  unfold Chunker.chunk_text in Hw. rewrite Hws in Hw.
  change (match w :: ws with
          | [] => Some []
          | _ :: _ => Chunker.chunk_loop (S (length (w :: ws))) (w :: ws) 300 50 0 []
          end)
    with (Chunker.chunk_loop (S (length (w :: ws))) (w :: ws) 300 50 0 []) in *.
  by rewrite Hw.
Qed.

(** ** Texts with a word give a chunk *)

Lemma split_go_nonempty s :
  ∀ cur, Py.strip_is_empty s = false ∨ cur ≠ [] → Py.split_go s cur ≠ [].
Proof.
  induction s as [|c s IH]; intros cur [H|H]; simpl in *; try done.
  - by destruct cur.
  - destruct (Py.isspace c); simpl in H.
    + destruct cur; [by apply IH; left | done].
    + apply IH. by right.
  - destruct (Py.isspace c).
    + by destruct cur.
    + apply IH. by right.
Qed.

Lemma split_nonempty text : Py.strip_is_empty text = false → Py.split text ≠ [].
Proof. intros H. apply split_go_nonempty. by left. Qed.

Lemma split_empty text : Py.strip_is_empty text = true → Py.split text = [].
Proof.
  unfold Py.split. induction text as [|c s IH]; [done|]. simpl.
  intros [Hc Hs]%andb_prop. rewrite Hc. by apply IH.
Qed.

Lemma chunk_text_default_has_chunk (text : string) :
  Py.strip_is_empty text = false → Chunker.chunk_text_default text ≠ [].
Proof.
  intros Hstrip. apply split_nonempty in Hstrip.
  pose proof (chunk_text_default_returns text) as Hret.
  pose proof (chunk_text_length text 300 50 _ ltac:(lia) Hret) as Hlen.
  assert (0 < len (Py.split text)) as Hn.
  { unfold len. destruct (Py.split text); [done|]. simpl. lia. }
  assert (1 ≤ (len (Py.split text) + (300 - 50) - 1) / (300 - 50))
    by (apply Z.div_le_lower_bound; lia).
  intros Hnil. rewrite Hnil in Hlen. simpl in Hlen. lia.
Qed.

(** X6. [chunk_text(text)] with the default
    size and overlap gives at least one chunk exactly when [text.strip()] is
    not empty: in [run_query] the check for no chunks cannot fire once the
    check for no text has passed. *)
Theorem chunk_text_default_nonempty (text : string) :
  Py.strip_is_empty text = false ↔ Chunker.chunk_text_default text ≠ [].
Proof.
  split; [apply chunk_text_default_has_chunk|].
  intros Hne. destruct (Py.strip_is_empty text) eqn:Hs; [|done].
  exfalso. apply Hne. unfold Chunker.chunk_text_default, Chunker.chunk_text.
  by rewrite (split_empty text Hs).
Qed.

(** ** Local index: what an upsert writes *)

Section UpsertState.
Context {num : Numerics}.
Import VectorSearch.

Lemma enumerate_snoc {A} (l : list A) (x : A) :
  Py.enumerate (l ++ [x]) = Py.enumerate l ++ [(len l, x)].
Proof.
  unfold Py.enumerate. rewrite imap_app. simpl.
  unfold len. by rewrite Nat.add_0_r.
Qed.

(** The loop of [upsert], one record further. *)
Lemma upsert_loop_snoc start st (vs : list vector) (v : vector) :
  foldl (upsert_step start) st (Py.enumerate (vs ++ [v]))
  = upsert_step start (foldl (upsert_step start) st (Py.enumerate vs)) (len vs, v).
Proof. by rewrite enumerate_snoc, foldl_app. Qed.

(** A property of the two mappings that every assignment of the loop
    keeps is kept by the loop. *)
Lemma upsert_loop_keeps start
    (Q : gmap string (gmap string string) → gmap string string → Prop) :
  (∀ md idm k id m, Q md idm → Q (<[id := m]> md) (<[k := id]> idm)) →
  ∀ (l : list (Z * vector)) st,
    Q st.1.2 st.2 →
    Q (foldl (upsert_step start) st l).1.2 (foldl (upsert_step start) st l).2.
Proof.
  intros Hstep. induction l as [|[i [[vid emb] meta]] l IH]; intros [[embs md] idm] HQ.
  - done.
  - simpl. apply IH. simpl. by apply Hstep.
Qed.

(** The loop removes no key, and keeps "every mapped id has metadata". *)
Lemma upsert_loop_grows start md0 idm0 (l : list (Z * vector)) embs0 :
  (∀ k id, idm0 !! k = Some id → is_Some (md0 !! id)) →
  let st := foldl (upsert_step start) (embs0, md0, idm0) l in
  (∀ k, is_Some (idm0 !! k) → is_Some (st.2 !! k))
  ∧ (∀ id, is_Some (md0 !! id) → is_Some (st.1.2 !! id))
  ∧ (∀ k id, st.2 !! k = Some id → is_Some (st.1.2 !! id)).
Proof.
  intros HK.
  apply (upsert_loop_keeps start
           (λ md idm,
              (∀ k, is_Some (idm0 !! k) → is_Some (idm !! k))
              ∧ (∀ id, is_Some (md0 !! id) → is_Some (md !! id))
              ∧ (∀ k id, idm !! k = Some id → is_Some (md !! id)))).
  - intros md idm k id m (H1 & H2 & H3). split; [|split].
    + intros k' Hk'. apply lookup_insert_is_Some'. right. by apply H1.
    + intros id' Hid'. apply lookup_insert_is_Some'. right. by apply H2.
    + intros k' id' Hk'. apply lookup_insert_is_Some'.
      destruct (decide (k = k')) as [->|Hne].
      * rewrite lookup_insert_eq in Hk'. left. congruence.
      * rewrite lookup_insert_ne in Hk' by done. right. by eapply H3.
  - simpl. split; [done|]. split; [done|]. exact HK.
Qed.

(** After the loop, position [start + i] maps to the id of record [i], and
    the keys that are no new position are as before. *)
Lemma upsert_loop_id_mapping start (vs : list vector) st :
  let st' := foldl (upsert_step start) st (Py.enumerate vs) in
  (∀ (i : nat) v, vs !! i = Some v → st'.2 !! Py.str (start + Z.of_nat i) = Some v.1.1)
  ∧ (∀ k, (∀ i : nat, (i < length vs)%nat → k ≠ Py.str (start + Z.of_nat i)) →
          st'.2 !! k = st.2 !! k).
Proof.
  induction vs as [|v vs IH] using rev_ind; simpl.
  - split; [intros i v Hi; by rewrite lookup_nil in Hi | done].
  - rewrite upsert_loop_snoc.
    destruct IH as [IH1 IH2].
    destruct (foldl _ st (Py.enumerate vs)) as [[embs md] idm] eqn:Hf.
    destruct v as [[vid emb] meta]. simpl in *. split.
    + intros i v Hi. apply lookup_app_Some in Hi as [Hi|[Hlen Hi]].
      * rewrite lookup_insert_ne; [by apply IH1|].
        apply lookup_lt_Some in Hi. intros Heq.
        apply (inj pretty) in Heq. unfold len in Heq.
        apply Z.add_reg_l, Nat2Z.inj in Heq. subst i.
        by apply Nat.lt_irrefl in Hi.
      * apply list_lookup_singleton_Some in Hi as [Hd <-].
        unfold vector in *. replace i with (length vs) by lia.
        apply lookup_insert_eq.
    + intros k Hk. rewrite length_app in Hk. simpl in Hk.
      rewrite lookup_insert_ne.
      * apply IH2. intros i Hi. apply Hk. lia.
      * intros <-. apply (Hk (length vs)); [lia|done].
Qed.

(** After the loop, an id of the batch has the metadata of its last record,
    and the other ids are as before. *)
Lemma upsert_loop_metadata start (vs : list vector) st :
  let st' := foldl (upsert_step start) st (Py.enumerate vs) in
  (∀ (i : nat) v, vs !! i = Some v →
     (∀ (i' : nat) v', (i < i')%nat → vs !! i' = Some v' → v'.1.1 ≠ v.1.1) →
     st'.1.2 !! v.1.1 = Some v.2)
  ∧ (∀ id, (∀ v, v ∈ vs → v.1.1 ≠ id) → st'.1.2 !! id = st.1.2 !! id).
Proof.
  induction vs as [|v vs IH] using rev_ind; simpl.
  - split; [intros i v Hi; by rewrite lookup_nil in Hi | done].
  - rewrite upsert_loop_snoc.
    destruct IH as [IH1 IH2].
    destruct (foldl _ st (Py.enumerate vs)) as [[embs md] idm] eqn:Hf.
    destruct v as [[vid emb] meta]. simpl in *. split.
    + intros i v Hi Hlast. apply lookup_app_Some in Hi as [Hi|[Hlen Hi]].
      * rewrite lookup_insert_ne.
        -- apply (IH1 i); [done|]. intros i' v' Hlt Hi'.
           apply (Hlast i'); [done|]. by apply lookup_app_l_Some.
        -- apply lookup_lt_Some in Hi as Hilt.
           apply (Hlast (length vs) (vid, emb, meta)); [exact Hilt|].
           rewrite lookup_app_r by done. by rewrite Nat.sub_diag.
      * apply list_lookup_singleton_Some in Hi as [Hd <-].
        apply lookup_insert_eq.
    + intros id Hid. rewrite lookup_insert_ne.
      * apply IH2. intros v Hv. apply Hid. apply elem_of_app. by left.
      * apply (Hid (vid, emb, meta)). apply elem_of_app. right. by left.
Qed.

End UpsertState.

(** ** Local index: outcomes of an upsert *)

Section UpsertOutcome.
Context {num : Numerics}.
Import VectorSearch LocalIndex.

Lemma add_rows_ok (ix : IndexFlatIP) (rows : list (list float32)) :
  rows ≠ [] → (∀ r, r ∈ rows → len r = d ix) →
  (x ← np_array rows; x ← normalize_L2 x; index_add ix x)
  = Ok {| d := d ix; xb := xb ix ++ (normalize_L2_row <$> rows) |}.
Proof.
  intros Hne Hall. destruct rows as [|r rest]; [done|]. unfold np_array.
  assert (forallb (λ r', bool_decide (length r' = length r)) rest = true) as ->.
  { apply forallb_forall. intros r' Hr'. apply bool_decide_eq_true.
    apply list_elem_of_In in Hr'.
    pose proof (Hall r ltac:(left)) as H1.
    pose proof (Hall r' ltac:(by right)) as H2.
    unfold len in *. lia. }
  simpl. rewrite decide_True; [done|]. apply Hall. by left.
Qed.

(** The client and disk an upsert leaves, in terms of its loop. *)
Lemma upsert_unfold (c : FAISSClient) (fs : disk) (vectors : list vector) :
  let st := foldl (upsert_step (ntotal (index c))) ([], metadata c, id_mapping c)
              (Py.enumerate vectors) in
  let c1 := with_mappings c st.1.2 st.2 in
  upsert c fs vectors
  = match
      x ← np_array ((λ v : vector, v.1.2) <$> vectors);
      x ← normalize_L2 x;
      index_add (index c) x
    with
    | Raise e => (c1, fs, Raise e)
    | Ok ix => (with_index c1 ix, save (with_index c1 ix) fs, Ok ())
    end.
Proof.
  intros st c1. unfold upsert.
  pose proof (upsert_embeddings c vectors) as Hembs.
  subst c1 st. destruct (foldl _ _ _) as [[embs md] idm]. simpl in *.
  by subst embs.
Qed.

(** X7. An upsert of at least one record into the
    local index succeeds if and only if every embedding has the length of
    the index dimension. *)
Theorem upsert_succeeds_iff (c : FAISSClient) (fs : disk) (vectors : list vector) :
  vectors ≠ [] →
  (upsert c fs vectors).2 = Ok ()
  ↔ ∀ v, v ∈ vectors → len v.1.2 = d (index c).
Proof.
  intros Hne. rewrite upsert_unfold. split.
  - intros Hok v Hv. destruct (decide (len v.1.2 = d (index c))) as [|Hlen]; [done|].
    destruct (add_rows_mismatch (index c) ((λ v : vector, v.1.2) <$> vectors) v.1.2)
      as (e & He & _); [apply list_elem_of_fmap; by exists v | done |].
    rewrite He in Hok. done.
  - intros Hall. rewrite add_rows_ok; [done| |].
    + by destruct vectors.
    + intros r (v & -> & Hv)%list_elem_of_fmap. by apply Hall.
Qed.

(** X8. After a successful upsert the local index has the
    same dimension and holds the old rows followed by one normalised row per
    record; position [ntotal + i] is mapped to the id of record [i] and the
    other keys of the position-to-id mapping are untouched; an id of the
    batch has the metadata of the last record that carries it, and the
    metadata of other ids is untouched. *)
Theorem upsert_ok_state
    (c c' : FAISSClient) (fs fs' : disk) (vectors : list vector) :
  upsert c fs vectors = (c', fs', Ok ()) →
  d (index c') = d (index c)
  ∧ xb (index c')
    = xb (index c) ++ (normalize_L2_row <$> ((λ v : vector, v.1.2) <$> vectors))
  ∧ (∀ (i : nat) v, vectors !! i = Some v →
       id_mapping c' !! Py.str (ntotal (index c) + Z.of_nat i) = Some v.1.1)
  ∧ (∀ k, (∀ i : nat, (i < length vectors)%nat →
             k ≠ Py.str (ntotal (index c) + Z.of_nat i)) →
          id_mapping c' !! k = id_mapping c !! k)
  ∧ (∀ (i : nat) v, vectors !! i = Some v →
       (∀ (i' : nat) v', (i < i')%nat → vectors !! i' = Some v' → v'.1.1 ≠ v.1.1) →
       metadata c' !! v.1.1 = Some v.2)
  ∧ (∀ id, (∀ v, v ∈ vectors → v.1.1 ≠ id) → metadata c' !! id = metadata c !! id).
Proof.
  intros Hup.
  destruct (upsert_ok_appends c c' fs fs' vectors Hup) as [Hxb _].
  rewrite upsert_unfold in Hup.
  destruct (_ ≫= _) as [ix|e] eqn:Hadd; [|done].
  injection Hup as <- _.
  pose proof (upsert_loop_id_mapping (ntotal (index c)) vectors
                ([], metadata c, id_mapping c)) as [Hid1 Hid2].
  pose proof (upsert_loop_metadata (ntotal (index c)) vectors
                ([], metadata c, id_mapping c)) as [Hmd1 Hmd2].
  split.
  { simpl. unfold np_array in Hadd.
    destruct ((λ v : vector, v.1.2) <$> vectors) as [|r rest]; [done|].
    destruct (forallb _ rest); [|done]. simpl in Hadd.
    case_decide; [|done]. by simplify_eq/=. }
  split; [exact Hxb|]. simpl. eauto.
Qed.

(** X9. After a successful upsert on a client whose
    file names are the ones the constructor derives, constructing a client
    again from the disk with the same name and dimension gives exactly the
    client the upsert left: vectors and both mappings survive a restart. *)
Theorem upsert_then_reload
    (c c' : FAISSClient) (fs fs' : disk) (vectors : list vector) :
  well_named c →
  upsert c fs vectors = (c', fs', Ok ()) →
  FAISSClient_init fs' (index_name c) (dimension c) = Ok c'
  ∧ well_named c'.
Proof.
  intros (Hi & Hm & Hd) Hup. rewrite upsert_unfold in Hup.
  destruct (_ ≫= _) as [ix|e] eqn:Hadd; [|done].
  injection Hup as <- <-. split; [|done].
  unfold FAISSClient_init, json_load, save. simpl.
  rewrite <- Hi, <- Hm, <- Hd.
  rewrite !lookup_insert_eq. simpl.
  unfold with_index, with_mappings. simpl. done.
Qed.

(** X10. Whatever its outcome, an upsert keeps the
    dimension, keeps the stored rows as a prefix of the new ones, and
    removes no key from the metadata or the position-to-id mapping; when it
    fails the vector store and the disk are exactly as before. *)
Theorem upsert_never_removes
    (c : FAISSClient) (fs : disk) (vectors : list vector) :
  let c' := (upsert c fs vectors).1.1 in
  d (index c') = d (index c)
  ∧ xb (index c) `prefix_of` xb (index c')
  ∧ (∀ id, is_Some (metadata c !! id) → is_Some (metadata c' !! id))
  ∧ (∀ k, is_Some (id_mapping c !! k) → is_Some (id_mapping c' !! k))
  ∧ ((upsert c fs vectors).2 ≠ Ok () →
     index c' = index c ∧ (upsert c fs vectors).1.2 = fs).
Proof.
  intros c'. subst c'. rewrite upsert_unfold.
  assert (∀ md0 idm0,
    let st := foldl (upsert_step (ntotal (index c))) ([], md0, idm0)
                (Py.enumerate vectors) in
    (∀ k, is_Some (idm0 !! k) → is_Some (st.2 !! k))
    ∧ (∀ id, is_Some (md0 !! id) → is_Some (st.1.2 !! id))) as Hgrow.
  { intros md0 idm0.
    apply (upsert_loop_keeps (ntotal (index c))
             (λ md idm,
                (∀ k, is_Some (idm0 !! k) → is_Some (idm !! k))
                ∧ (∀ id, is_Some (md0 !! id) → is_Some (md !! id)))); [|done].
    intros md idm k id m [H1 H2]. split.
    - intros k' Hk'. apply lookup_insert_is_Some'. right. by apply H1.
    - intros id' Hid'. apply lookup_insert_is_Some'. right. by apply H2. }
  destruct (Hgrow (metadata c) (id_mapping c)) as [Hidm Hmd].
  destruct (_ ≫= _) as [ix|e] eqn:Hadd; simpl.
  - assert (d ix = d (index c) ∧ xb (index c) `prefix_of` xb ix) as [Hd Hpre].
    { unfold np_array in Hadd.
      destruct ((λ v : vector, v.1.2) <$> vectors) as [|r rest]; [done|].
      destruct (forallb _ rest); [|done]. simpl in Hadd.
      case_decide; [|done]. simplify_eq/=. split; [done|]. by apply prefix_app_r. }
    repeat split; try done.
  - repeat split; try done.
Qed.

End UpsertOutcome.

(** ** Local index: an invariant of the mappings *)

Section Mapped.
Context {num : Numerics}.
Import VectorSearch LocalIndex.

(** X11. When the vector store file
    of the index is absent, the constructor succeeds with an empty index of
    the requested dimension and empty mappings, whatever mapping files lie
    on the disk, and every query on it returns the empty list. *)
Theorem FAISSClient_init_without_index_file (fs : disk) (name : string) (dim : Z) :
  faiss_files fs !! (name +:+ ".faiss") = None →
  ∃ c, FAISSClient_init fs name dim = Ok c
       ∧ d (index c) = dim ∧ ntotal (index c) = 0
       ∧ metadata c = ∅ ∧ id_mapping c = ∅
       ∧ well_named c ∧ mapped c
       ∧ ∀ embedding top_k incl, query c embedding top_k incl = Ok [].
Proof.
  intros Hnone. unfold FAISSClient_init. rewrite Hnone.
  eexists. split; [done|]. simpl. repeat split; try done.
  intros i Hi. unfold ntotal, len in Hi. simpl in Hi. lia.
Qed.

Lemma upsert_preserves_mapped (c : FAISSClient) (fs : disk) (vectors : list vector) :
  mapped c → mapped (upsert c fs vectors).1.1.
Proof.
  intros [HJ HK]. rewrite upsert_unfold.
  destruct (upsert_loop_grows (ntotal (index c)) (metadata c) (id_mapping c)
              (Py.enumerate vectors) [] HK) as (Hidm & Hmd & HK').
  pose proof (upsert_loop_id_mapping (ntotal (index c)) vectors
                ([], metadata c, id_mapping c)) as [Hnew _].
  destruct (_ ≫= _) as [ix|e] eqn:Hadd; simpl.
  - split; simpl; [|exact HK'].
    intros i Hi.
    assert (xb ix = xb (index c)
                    ++ (normalize_L2_row <$> ((λ v : vector, v.1.2) <$> vectors))) as Hxb.
    { unfold np_array in Hadd.
      destruct ((λ v : vector, v.1.2) <$> vectors) as [|r rest]; [done|].
      destruct (forallb _ rest); [|done]. simpl in Hadd.
      case_decide; [|done]. by simplify_eq/=. }
    assert (ntotal ix = ntotal (index c) + len vectors) as Hnt.
    { unfold ntotal, len. rewrite Hxb, length_app, !length_fmap. lia. }
    rewrite Hnt in Hi.
    destruct (decide (i < ntotal (index c))) as [Hold|Hge].
    + apply Hidm, HJ. lia.
    + destruct (vectors !! Z.to_nat (i - ntotal (index c))) as [v|] eqn:Hv.
      * apply Hnew in Hv.
        replace (ntotal (index c) + Z.of_nat (Z.to_nat (i - ntotal (index c))))
          with i in Hv by lia.
        by rewrite Hv.
      * apply lookup_ge_None in Hv. unfold len in Hi. lia.
  - split; simpl; [|exact HK'].
    intros i Hi. by apply Hidm, HJ.
Qed.

(** X12. If every stored position has an id in the
    position-to-id mapping and every mapped id has metadata, the same holds
    after an upsert, successful or not; the file names stay the derived
    ones. *)
Theorem upsert_keeps_mapped (c : FAISSClient) (fs : disk) (vectors : list vector) :
  mapped c → well_named c →
  mapped (upsert c fs vectors).1.1 ∧ well_named (upsert c fs vectors).1.1.
Proof.
  intros Hm Hwn. split; [by apply upsert_preserves_mapped|].
  rewrite upsert_unfold. by destruct (_ ≫= _).
Qed.

Lemma search_row_labels ix k q :
  Forall (λ e : float32 * Z, e.2 = -1 ∨ 0 ≤ e.2 < ntotal ix) (search_row ix k q).
Proof.
  unfold search_row. apply Forall_app. split.
  - apply Forall_take. eapply Forall_impl; [apply ranking_labels|].
    simpl. intros e He. by right.
  - apply Forall_replicate. by left.
Qed.

Lemma format_matches_elem c incl found m :
  m ∈ format_matches c incl found →
  ∃ score idx, (score, idx) ∈ found ∧ idx ≠ -1
    ∧ match_id m = default (Py.str idx) (id_mapping c !! Py.str idx)
    ∧ match_score m = score
    ∧ match_metadata m = if incl then metadata c !! match_id m else None.
Proof.
  induction found as [|[score idx] rest IH]; simpl.
  - intros H. by apply elem_of_nil in H.
  - case_decide as Hidx; [intros H; by apply elem_of_nil in H|].
    intros [->|Hin]%elem_of_cons.
    + exists score, idx. simpl. repeat split; try done. by left.
    + destruct (IH Hin) as (s & i & Hsi & Hrest).
      exists s, i. split; [by right | done].
Qed.

(** X13. On a client where every stored position has
    an id and every mapped id has metadata, each match of a query that asks
    for metadata has the id mapped to a stored position and carries the
    metadata stored for that id; no match falls back to a position
    string. *)
Theorem query_mapped_matches
    (c : FAISSClient) (embedding : list float32) (top_k : Z) (ms : list Match) (m : Match) :
  mapped c →
  query c embedding top_k true = Ok ms → m ∈ ms →
  ∃ pos md,
    0 ≤ pos < ntotal (index c)
    ∧ id_mapping c !! Py.str pos = Some (match_id m)
    ∧ metadata c !! match_id m = Some md
    ∧ match_metadata m = Some md.
Proof.
  intros [HJ HK] Hq Hm. unfold query in Hq.
  case_decide as H0; [simplify_eq; by apply elem_of_nil in Hm|].
  simpl in Hq. case_decide; [|done]. case_decide; [|done]. simpl in Hq.
  simplify_eq.
  apply format_matches_elem in Hm as (score & idx & Hin & Hne & Hid & _ & Hmeta).
  pose proof (search_row_labels (index c) (Z.min top_k (ntotal (index c)))
                (normalize_L2_row embedding)) as Hlabels.
  rewrite Forall_forall in Hlabels. apply Hlabels in Hin. simpl in Hin.
  destruct Hin as [?|Hpos]; [done|].
  destruct (HJ idx Hpos) as [id Hidm]. rewrite Hidm in Hid. simpl in Hid.
  destruct (HK _ _ Hidm) as [md Hmd].
  exists idx, md. rewrite Hid, Hmeta, Hid. done.
Qed.

End Mapped.

(** ** Managed index: batches *)

Section Batches.
Context {num : Numerics}.
Import VectorSearch ManagedIndex.

Lemma batches_of_concat {A} (fuel : nat) :
  ∀ rest : list A, (length rest ≤ fuel)%nat → concat (batches_of fuel rest) = rest.
Proof.
  induction fuel as [|fuel IH]; intros rest Hlen.
  - destruct rest; [done|simpl in Hlen; lia].
  - destruct rest as [|x rest]; [done|].
    change (batches_of (S fuel) (x :: rest))
      with (take 100 (x :: rest) :: batches_of fuel (drop 100 (x :: rest))).
    rewrite concat_cons, IH; [apply take_drop|].
    rewrite length_drop. simpl in *. lia.
Qed.

Lemma batches_of_sizes {A} (fuel : nat) :
  ∀ rest : list A,
  Forall (λ b, (1 ≤ length b ≤ 100)%nat) (batches_of fuel rest).
Proof.
  induction fuel as [|fuel IH]; intros rest; [constructor|].
  destruct rest as [|x rest]; [constructor|].
  change (batches_of (S fuel) (x :: rest))
    with (take 100 (x :: rest) :: batches_of fuel (drop 100 (x :: rest))).
  constructor; [|apply IH].
  rewrite length_take, length_cons. lia.
Qed.

Lemma batches_of_length {A} (fuel : nat) :
  ∀ rest : list A, (length rest ≤ fuel)%nat →
  Z.of_nat (length (batches_of fuel rest)) = (len rest + 99) / 100.
Proof.
  induction fuel as [|fuel IH]; intros rest Hlen.
  - destruct rest; [done|simpl in Hlen; lia].
  - destruct rest as [|x rest]; [done|].
    change (batches_of (S fuel) (x :: rest))
      with (take 100 (x :: rest) :: batches_of fuel (drop 100 (x :: rest))).
    rewrite length_cons, Nat2Z.inj_succ, IH
      by (rewrite length_drop; simpl in *; lia).
    unfold len. rewrite length_drop.
    set (n := length (x :: rest)).
    assert (1 ≤ n)%nat by (subst n; simpl; lia).
    destruct (decide (n < 100)%nat).
    + replace (Z.of_nat (n - 100)) with 0 by lia.
      change ((0 + 99) / 100) with 0.
      apply Z.div_unique with (r := Z.of_nat n + 99 - 100); lia.
    + replace (Z.of_nat n + 99) with (Z.of_nat (n - 100) + 99 + 1 * 100) by lia.
      rewrite Z.div_add by lia. lia.
Qed.

Lemma batches_of_full {A} (fuel : nat) :
  ∀ (rest : list A) (i : nat) b,
  batches_of fuel rest !! i = Some b →
  (S i < length (batches_of fuel rest))%nat → length b = 100%nat.
Proof.
  induction fuel as [|fuel IH]; intros rest i b Hb Hi; [done|].
  destruct rest as [|x rest]; [done|].
  change (batches_of (S fuel) (x :: rest))
    with (take 100 (x :: rest) :: batches_of fuel (drop 100 (x :: rest))) in *.
  destruct i as [|i].
  - change (Some (take 100 (x :: rest)) = Some b) in Hb. injection Hb as <-.
    rewrite length_cons in Hi.
    destruct fuel as [|fuel]; [simpl in Hi; lia|].
    destruct (drop 100 (x :: rest)) as [|y rest'] eqn:Hdrop; [simpl in Hi; lia|].
    apply (f_equal length) in Hdrop. rewrite length_drop in Hdrop.
    rewrite !length_cons in Hdrop. rewrite length_cons, length_take. lia.
  - change (batches_of fuel (drop 100 (x :: rest)) !! i = Some b) in Hb.
    rewrite length_cons in Hi. eapply IH; [done|lia].
Qed.

Lemma pinecone_upsert_loop_send svc name (fuel : nat) :
  ∀ r (rest : list vector),
  pinecone_upsert_loop svc name fuel r rest
  = send_batches svc name r (batches_of fuel rest).
Proof.
  induction fuel as [|fuel IH]; intros r rest; [done|].
  destruct rest as [|x rest]; [done|].
  change (batches_of (S fuel) (x :: rest))
    with (take 100 (x :: rest) :: batches_of fuel (drop 100 (x :: rest))).
  simpl. destruct (remote_upsert svc r name _) as [r' [?|e]]; [|done].
  apply IH.
Qed.

(** X14. [PineconeClient.upsert] sends the batches
    of the slicing one after the other. The batches concatenate to the
    input, there are [ceil(n / 100)] of them (none for an empty input), each
    holds between 1 and 100 records, and all but the last hold exactly
    100. *)
Theorem pinecone_upsert_batches
    (svc : remote_index) (c : PineconeClient) (r : remote_state svc)
    (vectors : list vector) :
  pinecone_upsert svc c r vectors
  = send_batches svc (pc_index_name c) r (batches vectors)
  ∧ concat (batches vectors) = vectors
  ∧ Z.of_nat (length (batches vectors)) = (len vectors + 99) / 100
  ∧ Forall (λ b, (1 ≤ length b ≤ 100)%nat) (batches vectors)
  ∧ ∀ (i : nat) b, batches vectors !! i = Some b →
      (S i < length (batches vectors))%nat → length b = 100%nat.
Proof.
  split; [apply pinecone_upsert_loop_send|].
  split; [by apply batches_of_concat|].
  split; [by apply batches_of_length|].
  split; [apply batches_of_sizes|].
  apply batches_of_full.
Qed.

(** What [send_batches] does when a batch is rejected. *)
Lemma send_batches_app svc name r (bs1 bs2 : list (list vector)) :
  send_batches svc name r (bs1 ++ bs2)
  = match send_batches svc name r bs1 with
    | (r', Ok _) => send_batches svc name r' bs2
    | (r', Raise e) => (r', Raise e)
    end.
Proof.
  revert r. induction bs1 as [|b bs1 IH]; intros r; simpl; [done|].
  destruct (remote_upsert svc r name b) as [r' [?|e]]; [apply IH|done].
Qed.

(** X15. When the remote service accepts the
    first batches and rejects the next one, [PineconeClient.upsert] raises
    that error with the earlier batches already written, and sends no
    further batch. *)
Theorem pinecone_upsert_partial
    (svc : remote_index) (c : PineconeClient) (r r1 r2 : remote_state svc)
    (vectors : list vector) (sent rest : list (list vector))
    (b : list vector) (e : exn) :
  batches vectors = sent ++ b :: rest →
  send_batches svc (pc_index_name c) r sent = (r1, Ok ()) →
  remote_upsert svc r1 (pc_index_name c) b = (r2, Raise e) →
  pinecone_upsert svc c r vectors = (r2, Raise e).
Proof.
  intros Hb Hsent Hfail.
  unfold pinecone_upsert. rewrite pinecone_upsert_loop_send.
  change (batches_of (length vectors) vectors) with (batches vectors).
  rewrite Hb, send_batches_app, Hsent. simpl. by rewrite Hfail.
Qed.

End Batches.

(** ** Managed index: construction *)

Section ManagedInit.
Context {num : Numerics}.
Import VectorSearch ManagedIndex.

(** The index [PineconeClient.__init__] creates when the name is not
    hosted. *)
Lemma PineconeClient_init_unfold environ pc api_key environment name :
  PineconeClient_init environ pc api_key environment name
  = match resolved_key environ api_key with
    | Some key =>
        if Py.truthy (resolved_key environ api_key) then
          if reachable pc then
            if decide (name ∈ idx_name <$> hosted pc) then
              (pc, Ok {| pc_api_key := key; pc_index_name := name |})
            else
              ({| reachable := true;
                  hosted := hosted pc ++
                    [{| idx_name := name; idx_dimension := 1536;
                        idx_metric := "cosine"; idx_cloud := "aws";
                        idx_region := "us-west-2" |}] |},
               Ok {| pc_api_key := key; pc_index_name := name |})
          else (pc, Raise (RemoteError "unreachable"))
        else (pc, Raise (ValueError "PINECONE_API_KEY must be set"))
    | None => (pc, Raise (ValueError "PINECONE_API_KEY must be set"))
    end.
Proof.
  unfold PineconeClient_init, resolved_key, list_indexes, create_index.
  destruct (Py.py_or api_key _) as [key|]; [|done].
  destruct (Py.truthy (Some key)); [|done].
  destruct (reachable pc); [|done].
  destruct (decide (name ∈ idx_name <$> hosted pc)) as [Hin|Hnin]; [done|].
  simpl. by rewrite decide_False.
Qed.

(** X16. [PineconeClient.__init__]
    succeeds if and only if the key argument or, failing that, the
    environment gives a non-empty key and the service answers. Without a
    key it raises ValueError, and whenever it fails the service is left as
    it was. *)
Theorem PineconeClient_init_succeeds_iff
    (environ : gmap string string) (pc : control_plane)
    (api_key environment : option string) (name : string) :
  let out := PineconeClient_init environ pc api_key environment name in
  (is_ok out.2 = true
   ↔ Py.truthy (resolved_key environ api_key) = true ∧ reachable pc = true)
  ∧ (Py.truthy (resolved_key environ api_key) = false →
     out = (pc, Raise (ValueError "PINECONE_API_KEY must be set")))
  ∧ (is_ok out.2 = false → out.1 = pc).
Proof.
  intros out. subst out. rewrite PineconeClient_init_unfold.
  destruct (resolved_key environ api_key) as [key|] eqn:Hkey; simpl.
  - destruct (negb _) eqn:Ht; simpl.
    + destruct (reachable pc); simpl.
      * destruct (decide (name ∈ idx_name <$> hosted pc)); simpl;
          repeat split; done.
      * repeat split; try done. by intros [_ ?].
    + repeat split; try done. by intros [? _].
  - repeat split; try done. by intros [? _].
Qed.

(** X17. After a successful
    [PineconeClient.__init__] the named index is hosted and the indexes
    hosted before are unchanged: an index that already has the name is used
    as it is, a missing one is appended with dimension 1536 and cosine
    metric, and constructing the client a second time changes nothing. *)
Theorem PineconeClient_init_hosts_index
    (environ : gmap string string) (pc pc' : control_plane)
    (api_key environment : option string) (name : string) (c : PineconeClient) :
  PineconeClient_init environ pc api_key environment name = (pc', Ok c) →
  pc_index_name c = name
  ∧ resolved_key environ api_key = Some (pc_api_key c)
  ∧ name ∈ idx_name <$> hosted pc'
  ∧ hosted pc `prefix_of` hosted pc'
  ∧ (∀ desc, desc ∈ hosted pc → idx_name desc = name → pc' = pc)
  ∧ (name ∉ idx_name <$> hosted pc →
     hosted pc' = hosted pc ++
       [{| idx_name := name; idx_dimension := 1536; idx_metric := "cosine";
           idx_cloud := "aws"; idx_region := "us-west-2" |}])
  ∧ PineconeClient_init environ pc' api_key environment name = (pc', Ok c).
Proof.
  rewrite !PineconeClient_init_unfold.
  destruct (resolved_key environ api_key) as [key|] eqn:Hkey; [|done].
  destruct (Py.truthy (Some key)) eqn:Ht; [|done].
  destruct (reachable pc) eqn:Hr; [|done].
  destruct (decide (name ∈ idx_name <$> hosted pc)) as [Hin|Hnin].
  - intros [= <- <-]. simpl. rewrite Hr, decide_True by done.
    repeat split; try done.
  - intros [= <- <-]. simpl.
    assert (name ∈ idx_name <$> hosted pc ++
              [{| idx_name := name; idx_dimension := 1536; idx_metric := "cosine";
                  idx_cloud := "aws"; idx_region := "us-west-2" |}]) as Hnow.
    { rewrite fmap_app. apply elem_of_app. right. simpl. by left. }
    rewrite decide_True by done.
    repeat split; try done.
    + by apply prefix_app_r.
    + intros desc Hdesc Hname. exfalso. apply Hnin.
      apply list_elem_of_fmap. by exists desc.
Qed.

(** X18. [create_vector_client] returns the
    managed client exactly when the import succeeded, the key is set and
    the service answers; otherwise the service is left untouched and the
    result is that of the local constructor when faiss is available, and a
    RuntimeError when it is not. *)
Theorem create_vector_client_selection
    (PINECONE_AVAILABLE FAISS_AVAILABLE : bool)
    (environ : gmap string string) (pc : control_plane) (fs : disk)
    (name : string) (dimension : Z) :
  let out := create_vector_client PINECONE_AVAILABLE FAISS_AVAILABLE environ pc fs
               name dimension in
  let managed :=
    PINECONE_AVAILABLE && Py.truthy (Py.getenv environ "PINECONE_API_KEY")
    && reachable pc in
  (managed = true →
     ∃ pc' c, out = (pc', Ok (UsePinecone c))
       ∧ pc_index_name c = name ∧ name ∈ idx_name <$> hosted pc')
  ∧ (managed = false → FAISS_AVAILABLE = true →
     out = (pc, c ← FAISSClient_init fs name dimension; Ok (UseFAISS c)))
  ∧ (managed = false → FAISS_AVAILABLE = false →
     ∃ msg, out = (pc, Raise (RuntimeError msg))).
Proof.
  intros out managed. subst out managed. unfold create_vector_client.
  destruct PINECONE_AVAILABLE; simpl.
  - destruct (Py.truthy (Py.getenv environ "PINECONE_API_KEY")) eqn:Ht; simpl.
    + pose proof (PineconeClient_init_unfold environ pc None None name) as Hinit.
      assert (resolved_key environ None = Py.getenv environ "PINECONE_API_KEY") as Hkey
        by done.
      rewrite Hkey, Ht in Hinit.
      destruct (Py.getenv environ "PINECONE_API_KEY") as [key|] eqn:Hget; [|done].
      destruct (reachable pc) eqn:Hr.
      * split; [|split; intros; done]. intros _.
        destruct (decide (name ∈ idx_name <$> hosted pc)) as [Hin|Hnin];
          rewrite Hinit; eexists _, _; (split; [done|]); (split; [done|]);
          simpl; [done|].
        rewrite fmap_app. apply elem_of_app. right. simpl. by left.
      * rewrite Hinit. split; [done|].
        destruct FAISS_AVAILABLE; split; intros; try done. eauto.
    + split; [done|]. destruct FAISS_AVAILABLE; split; intros; try done. eauto.
  - split; [done|]. destruct FAISS_AVAILABLE; split; intros; try done. eauto.
Qed.

End ManagedInit.

(** ** Embedding gateway: providers that are not configured *)

Section Providers.
Context {num : Numerics}.
Import EmbeddingEngine.

(** X19. For a provider that is unknown or
    not configured, [get_embedding] raises the ValueError that names the
    provider; [get_embeddings_batch] raises it too on a non-empty list, but
    returns the empty list on an empty one. *)
Theorem get_embedding_not_configured
    (s : services) (provider : string) (texts : list string) :
  (provider = "openai"%string → openai_client s = None) →
  (provider = "gemini"%string → Py.truthy (GEMINI_API_KEY s) = false) →
  (provider = "deepseek"%string → Py.truthy (DEEPSEEK_API_KEY s) = false) →
  let err := ValueError ("Provider '" +:+ provider +:+ "' not available or API key missing") in
  (∀ text, get_embedding s text provider = Raise err)
  ∧ get_embeddings_batch s [] provider = Ok []
  ∧ (texts ≠ [] → get_embeddings_batch s texts provider = Raise err).
Proof.
  intros Ho Hg Hd err.
  assert (∀ text, get_embedding s text provider = Raise err) as Hone.
  { intros text. unfold get_embedding.
    destruct (decide (provider = "openai"%string)) as [Hp|Hp].
    - rewrite (Ho Hp). subst provider. done.
    - destruct (openai_client s);
        (destruct (decide (provider = "gemini"%string)) as [Hpg|Hpg];
         [rewrite (Hg Hpg); subst provider; done|]);
        rewrite (bool_decide_eq_false_2 _ Hpg); simpl;
        (destruct (decide (provider = "deepseek"%string)) as [Hpd|Hpd];
         [rewrite (Hd Hpd); subst provider; done|]);
        by rewrite (bool_decide_eq_false_2 _ Hpd). }
  split; [exact Hone|].
  assert (∀ ts, get_embeddings_batch s ts provider
                = gather ((λ text, get_embedding s text provider) <$> ts)) as Hb.
  { intros ts. unfold get_embeddings_batch.
    destruct (decide (provider = "openai"%string)) as [Hp|Hp]; [|done].
    by rewrite (Ho Hp). }
  split; [by rewrite Hb|].
  intros Hne. rewrite Hb. destruct texts as [|t ts]; [done|].
  simpl. unfold gather. simpl. by rewrite Hone.
Qed.

End Providers.

(** ** Request handler: status codes, answers, records *)

Lemma collect_Raise_inv {A} (steps : list (result A)) (e : exn) :
  collect steps = Raise e → Raise e ∈ steps.
Proof.
  induction steps as [|t ts IH]; simpl; [done|].
  destruct t as [a|e']; [|intros [= ->]; by left].
  destruct (collect ts) as [rest|e'']; [done|].
  intros [= ->]. right. by apply IH.
Qed.

Section HandlerMore.
Context {num : Numerics}.
Import VectorSearch Endpoints.

(** X20. The status of [run_query] is 200, 400 or 500, never 422. It is
    400 exactly when the URL parses and its lower-cased path ends in
    neither ".pdf" nor ".docx", in which case the state is unchanged. The
    URL is parsed before the [try]: a ValueError of [urlparse] leaves the
    handler as it is, with the state unchanged. Every other exception
    leaving the handler is an HTTPException with status 400 or 500. *)
Theorem run_query_status
    (w : collaborators) (settings : Config.Settings) (st : state w)
    (payload : QueryRequest) :
  let out := run_query w settings st payload in
  (http_status out.2 = 200 ∨ http_status out.2 = 400 ∨ http_status out.2 = 500)
  ∧ (http_status out.2 = 400
     ↔ ∃ path, urlparse w (documents payload) = Parsed path
               ∧ doc_type_of (Py.lower path) = None)
  ∧ (∀ path, urlparse w (documents payload) = Parsed path →
     doc_type_of (Py.lower path) = None →
     out = (st, Raise (HTTPException 400 "Only PDF and DOCX URLs are supported.")))
  ∧ (∀ msg, urlparse w (documents payload) = Invalid msg →
     out = (st, Raise (ValueError msg)))
  ∧ (∀ e, out.2 = Raise e →
     (∃ msg, urlparse w (documents payload) = Invalid msg ∧ e = ValueError msg)
     ∨ ∃ status_code detail,
         e = HTTPException status_code detail
         ∧ (status_code = 400 ∨ status_code = 500)).
Proof.
  intros out. subst out. unfold run_query.
  destruct (urlparse w (documents payload)) as [path|msg].
  - destruct (doc_type_of (Py.lower path)) as [dt|] eqn:Hdt; simpl.
    + destruct (process w settings st payload dt) as [st' [response|e]]; simpl.
      * split; [by left|]. split; [|split; [|split]].
        -- split; [done|]. intros (path' & [= <-] & Hnone). congruence.
        -- intros path' [= <-] Hnone. congruence.
        -- done.
        -- done.
      * split; [by right; right|]. split; [|split; [|split]].
        -- split; [done|]. intros (path' & [= <-] & Hnone). congruence.
        -- intros path' [= <-] Hnone. congruence.
        -- done.
        -- intros e' [= <-]. right. eauto.
    + split; [by right; left|]. split; [|split; [|split]].
      * split; [eauto|done].
      * done.
      * done.
      * intros e' [= <-]. right. eauto.
  - simpl. split; [by right; right|]. split; [|split; [|split]].
    + split; [done|]. by intros (path' & ? & _).
    + done.
    + by intros msg' [= <-].
    + intros e' [= <-]. left. eauto.
Qed.


(** X22. The records built for the upsert: with
    no more embeddings than chunks, record [i] has the id [str(i)], the
    [i]-th embedding and the metadata [{"text": chunks[i]}]; with more
    embeddings than chunks the construction raises IndexError. *)
Theorem vectors_to_upsert_records
    (chunks : list string) (chunk_embeddings : list (list float32)) :
  ((length chunk_embeddings ≤ length chunks)%nat →
     ∃ vectors,
       vectors_to_upsert chunks chunk_embeddings = Ok vectors
       ∧ length vectors = length chunk_embeddings
       ∧ ∀ (i : nat) emb chunk,
           chunk_embeddings !! i = Some emb → chunks !! i = Some chunk →
           vectors !! i
           = Some (Py.str (Z.of_nat i), emb, {[ "text"%string := chunk ]}))
  ∧ ((length chunks < length chunk_embeddings)%nat →
     vectors_to_upsert chunks chunk_embeddings = Raise IndexError).
Proof.
  unfold vectors_to_upsert. split.
  - intros Hlen.
    exists (imap (λ i emb, (Py.str (Z.of_nat i), emb,
                            {[ "text"%string := default EmptyString (chunks !! i) ]}))
              chunk_embeddings).
    split; [|split].
    + apply collect_Ok. apply list_eq. intros i. unfold Py.enumerate.
      rewrite !list_lookup_fmap, !list_lookup_imap.
      destruct (chunk_embeddings !! i) as [emb|] eqn:Hemb; [|done]. simpl.
      rewrite Nat2Z.id.
      apply lookup_lt_Some in Hemb.
      destruct (chunks !! i) as [chunk|] eqn:Hch; [done|].
      apply lookup_ge_None in Hch. lia.
    + by rewrite length_imap.
    + intros i emb chunk Hemb Hch. by rewrite list_lookup_imap, Hemb, Hch.
  - intros Hlen.
    destruct (collect _) as [vectors|e] eqn:Hc.
    + apply collect_Ok in Hc.
      apply (f_equal (λ l, l !! length chunks)) in Hc.
      unfold Py.enumerate in Hc.
      rewrite !list_lookup_fmap, list_lookup_imap in Hc.
      destruct (chunk_embeddings !! length chunks) as [emb|] eqn:Hemb.
      * simpl in Hc. rewrite Nat2Z.id in Hc.
        rewrite (proj2 (lookup_ge_None chunks (length chunks)) ltac:(lia)) in Hc.
        by destruct (vectors !! length chunks).
      * apply lookup_ge_None in Hemb. lia.
    + apply collect_Raise_inv in Hc.
      apply list_elem_of_fmap in Hc as ([i emb] & Hc & _). simpl in Hc.
      destruct (chunks !! Z.to_nat i); [done|]. by injection Hc as ->.
Qed.

(** X23. When no vector client could be built at
    start, [run_query] never succeeds and leaves the state as it is: the
    status is 400 or 500, and a request whose document is read, chunked and
    embedded ends with the message that the vector database is not
    available, wrapped by the [except] clause. *)
Theorem run_query_without_client
    (w : collaborators) (settings : Config.Settings) (st : state w)
    (payload : QueryRequest) :
  the_vector_client w st = None →
  let out := run_query w settings st payload in
  out.1 = st
  ∧ (http_status out.2 = 400 ∨ http_status out.2 = 500)
  ∧ ∀ path doc_type text chunk_embeddings,
      urlparse w (documents payload) = Parsed path →
      doc_type_of (Py.lower path) = Some doc_type →
      extract_text w (documents payload) doc_type = Ok text →
      Py.strip_is_empty text = false →
      EmbeddingEngine.get_embeddings_batch (embedding w)
        (Chunker.chunk_text_default text)
        (Config.DEFAULT_EMBEDDING_PROVIDER settings) = Ok chunk_embeddings →
      out.2 = Raise (HTTPException 500
                       ("Failed to process request: "
                        +:+ exception_str w
                              (HTTPException 500 "Vector database not available"))).
Proof.
  intros Hnone out. subst out. unfold run_query.
  destruct (urlparse w (documents payload)) as [path0|msg] eqn:Hurl;
    [|simpl; split; [done|]; split; [by right|done]].
  destruct (doc_type_of _) as [dt|] eqn:Hdt;
    [|simpl; split; [done|]; split; [by left|]; intros ???? [= <-] Hdt'; congruence].
  assert (∃ e, process w settings st payload dt = (st, Raise e)) as [e Hp].
  { unfold process. rewrite Hnone.
    destruct (extract_text w _ dt) as [text|]; [|eauto].
    destruct (Py.strip_is_empty text); [eauto|].
    destruct (Chunker.chunk_text_default text) as [|ch chunks]; [eauto|].
    destruct (EmbeddingEngine.get_embeddings_batch _ _ _); eauto. }
  rewrite Hp. simpl. split; [done|]. split; [by right|].
  intros path doc_type text chunk_embeddings [= <-] Hdt'.
  rewrite Hdt in Hdt'. injection Hdt' as <-. intros Htext Hstrip Hemb.
  unfold process in Hp. rewrite Htext, Hstrip, Hemb, Hnone in Hp.
  pose proof (chunk_text_default_has_chunk text Hstrip) as Hne.
  destruct (Chunker.chunk_text_default text) as [|ch chunks]; [done|].
  by injection Hp as <-.
Qed.

End HandlerMore.

(** ** Stripping *)

Lemma lstrip_chars_head l c :
  head (PyText.lstrip_chars l) = Some c → Py.isspace c = false.
Proof.
  induction l as [|a l IH]; simpl; [done|].
  destruct (Py.isspace a) eqn:Ha; [done|]. simpl. by intros [= <-].
Qed.

Lemma lstrip_chars_suffix l : ∃ pre, l = pre ++ PyText.lstrip_chars l.
Proof.
  induction l as [|a l [pre IH]]; simpl; [by exists []|].
  destruct (Py.isspace a).
  - exists (a :: pre). simpl. by f_equal.
  - by exists [].
Qed.

Lemma strip_stripped s : PyText.stripped (PyText.strip s).
Proof.
  unfold PyText.stripped, PyText.strip.
  rewrite list_ascii_of_string_of_list_ascii.
  set (x := PyText.lstrip_chars (list_ascii_of_string s)).
  set (y := PyText.lstrip_chars (reverse x)).
  split; intros c Hc.
  - destruct (lstrip_chars_suffix (reverse x)) as [pre Hpre]. fold y in Hpre.
    apply (f_equal reverse) in Hpre.
    rewrite reverse_involutive, reverse_app in Hpre.
    apply (lstrip_chars_head (list_ascii_of_string s) c). fold x. rewrite Hpre.
    destruct (reverse y) as [|a l]; [done|]. simpl in *. done.
  - rewrite last_reverse in Hc. by apply (lstrip_chars_head (reverse x) c).
Qed.

(** ** Language model calls *)

Section Llm.
Context {num : Numerics}.
Import VectorSearch Endpoints.

(** X24. [generate_intelligent_answer]
    does not depend on the provider for its call: if it returns an answer
    for one provider it returns the same answer for any other, with only the
    rationale naming the provider, and if it raises it raises the same for
    any other. The answer has no white space at either end. *)
Theorem generate_intelligent_answer_provider
    (m : LlmService.language_model) (question : string)
    (relevant_chunks : list string) (provider provider' : string) :
  (∀ answer rationale,
     LlmService.generate_intelligent_answer m question relevant_chunks provider
     = Ok (answer, rationale) →
     LlmService.generate_intelligent_answer m question relevant_chunks provider'
     = Ok (answer, LlmService.answer_rationale provider' relevant_chunks)
     ∧ PyText.stripped answer)
  ∧ (∀ e,
     LlmService.generate_intelligent_answer m question relevant_chunks provider
     = Raise e →
     LlmService.generate_intelligent_answer m question relevant_chunks provider'
     = Raise e).
Proof.
  unfold LlmService.generate_intelligent_answer.
  destruct (bool_decide (provider = "gemini"%string)),
           (bool_decide (provider' = "gemini"%string));
    destruct (LlmService.generate_gemini_response m _ 800 _) as [response|e'];
    simpl; (split; [intros answer rationale [= <- <-]|intros e [= <-]]);
    try done; (split; [done|apply strip_stripped]).
Qed.

(** X25. [create_clause_explanations]
    gives one clause per pair of chunk and score, in order, as many as the
    shorter list: the text is the chunk and an explanation is always
    present. When the language model raises on a chunk the explanation is
    the fixed sentence with the formatted score; when it answers, the
    explanation is the formatted score and the stripped answer. *)
Theorem create_clause_explanations_fallback
    (m : LlmService.language_model) (chunks : list string)
    (scores : list float32) (question : string) :
  let clauses := LlmService.create_clause_explanations m chunks scores question in
  length clauses = (length chunks `min` length scores)%nat
  ∧ ∀ (i : nat) chunk score, chunks !! i = Some chunk → scores !! i = Some score →
      ∃ clause explanation,
        clauses !! i = Some clause
        ∧ clause_text clause = chunk
        ∧ clause_explanation clause = Some explanation
        ∧ (∀ e, LlmService.generate_gemini_response m
                  (LlmService.explanation_prompt question chunk) 150
                  (QArith_base.Qmake 2 10) = Raise e →
             explanation
             = "Semantic similarity score: " +:+ LlmService.format_3f m score
               +:+ " - This section contains content related to your query.")
        ∧ (∀ reply, LlmService.generate_gemini_response m
                  (LlmService.explanation_prompt question chunk) 150
                  (QArith_base.Qmake 2 10) = Ok reply →
             explanation
             = "Relevance score: " +:+ LlmService.format_3f m score +:+ " - "
               +:+ PyText.strip reply).
Proof.
  intros clauses. subst clauses. unfold LlmService.create_clause_explanations.
  split; [by rewrite length_fmap, length_zip|].
  intros i chunk score Hc Hs.
  rewrite list_lookup_fmap.
  assert (zip chunks scores !! i = Some (chunk, score)) as ->.
  { apply lookup_zip_with_Some. eauto. }
  simpl. eexists _, _. split; [done|]. split; [done|]. split; [done|].
  unfold LlmService.explain. simpl.
  split; [intros e ->|intros reply ->]; done.
Qed.

Lemma generate_intelligent_answer_stripped
    (m : LlmService.language_model) (question : string)
    (relevant_chunks : list string) (provider answer rationale : string) :
  LlmService.generate_intelligent_answer m question relevant_chunks provider
  = Ok (answer, rationale) →
  PyText.stripped answer.
Proof.
  unfold LlmService.generate_intelligent_answer.
  destruct (bool_decide (provider = "gemini"%string));
    destruct (LlmService.generate_gemini_response m _ 800 _) as [response|e'];
    simpl; try done; intros [= <- <-]; apply strip_stripped.
Qed.

Lemma create_clause_explanations_lookup
    (m : LlmService.language_model) (chunks : list string)
    (scores : list float32) (question : string) :
  length (LlmService.create_clause_explanations m chunks scores question)
  = (length chunks `min` length scores)%nat
  ∧ ∀ (i : nat) chunk score, chunks !! i = Some chunk → scores !! i = Some score →
      ∃ clause,
        LlmService.create_clause_explanations m chunks scores question !! i
        = Some clause
        ∧ clause_text clause = chunk
        ∧ is_Some (clause_explanation clause).
Proof.
  unfold LlmService.create_clause_explanations.
  split; [by rewrite length_fmap, length_zip|].
  intros i chunk score Hc Hs. rewrite list_lookup_fmap.
  assert (zip chunks scores !! i = Some (chunk, score)) as ->.
  { apply lookup_zip_with_Some. eauto. }
  simpl. eexists. split; [done|]. split; [done|]. by eexists.
Qed.

(** X26. With the language model calls of
    [llm_service] as collaborators, an answer returned by the loop body of
    [run_query] has one clause per match of the query, in the order of the
    matches; the text of clause [i] is the ["text"] metadata of match [i]
    and its explanation is present; the answer text has no white space at
    either end. *)
Theorem answer_question_clauses
    (m : LlmService.language_model) (w : collaborators) (settings : Config.Settings)
    (vc : vector_client) (b : backends (managed w)) (question : string) (a : Answer) :
  LlmService.served_by m w →
  answer_question w settings vc b question = Ok a →
  ∃ query_emb matches,
    EmbeddingEngine.get_embedding (embedding w) question
      (Config.DEFAULT_EMBEDDING_PROVIDER settings) = Ok query_emb
    ∧ client_query (managed w) vc b query_emb (Config.TOP_K_RESULTS settings) true
      = Ok matches
    ∧ length (clauses a) = length matches
    ∧ PyText.stripped (answer a)
    ∧ ∀ (i : nat) mt, matches !! i = Some mt →
        ∃ clause, clauses a !! i = Some clause
          ∧ metadata_text mt = Ok (clause_text clause)
          ∧ is_Some (clause_explanation clause).
Proof.
  intros [Hgen Hexp]. unfold answer_question.
  destruct (EmbeddingEngine.get_embedding _ _ _) as [query_emb|] eqn:Hemb; [|done].
  simpl.
  destruct (client_query _ vc b query_emb _ true) as [matches|] eqn:Hq; [|done].
  simpl.
  destruct (collect (metadata_text <$> matches)) as [relevant_chunks|] eqn:Hc; [|done].
  simpl. rewrite Hgen, Hexp.
  destruct (LlmService.generate_intelligent_answer m question _ _)
    as [[answer_text rationale]|] eqn:Hans; [|done].
  simpl. intros [= <-]. simpl.
  apply collect_Ok in Hc.
  assert (length relevant_chunks = length matches) as Hlen.
  { apply (f_equal length) in Hc. by rewrite !length_fmap in Hc. }
  exists query_emb, matches. split; [done|]. split; [done|].
  destruct (create_clause_explanations_lookup m relevant_chunks
              (match_score <$> matches) question) as [Hclen Hcl].
  split; [rewrite Hclen, length_fmap; lia|].
  split; [by eapply generate_intelligent_answer_stripped|].
  intros i mt Hi.
  apply (f_equal (λ l, l !! i)) in Hc.
  rewrite !list_lookup_fmap, Hi in Hc. simpl in Hc.
  destruct (relevant_chunks !! i) as [chunk|] eqn:Hchunk; [|done].
  simpl in Hc. injection Hc as Hc.
  destruct (Hcl i chunk (match_score mt) Hchunk) as (clause & H1 & H2 & H3).
  { by rewrite list_lookup_fmap, Hi. }
  exists clause. split; [done|]. split; [by rewrite H2|]. done.
Qed.

End Llm.

(** ** Worked examples *)

Lemma chunk_text_chunks_witness :
  ∃ chunks,
    Chunker.returns Samples.five_words 3 1 chunks
    ∧ Z.of_nat (length chunks) = (len (Py.split Samples.five_words) + (3 - 1) - 1) / (3 - 1).
Proof.
  destruct (chunk_text_chunks Samples.five_words 3 1) as (chunks & Hret & Hlen & _).
  - lia.
  - exists chunks. by split.
Defined.

Lemma chunk_text_covers_every_word_witness :
  ∃ chunk,
    ["a b c"; "c d e"; "e"]%string !! Z.to_nat (Z.of_nat 3 / (3 - 1)) = Some chunk
    ∧ Py.split chunk !! Z.to_nat (Z.of_nat 3 mod (3 - 1)) = Some "d"%string.
Proof.
  apply (chunk_text_covers_every_word Samples.five_words 3 1
           ["a b c"; "c d e"; "e"]%string 3 "d").
  - lia.
  - by exists 10%nat.
  - reflexivity.
Defined.

Lemma chunk_text_consecutive_overlap_witness :
  drop (Z.to_nat (3 - 1)) (Py.split "a b c") `prefix_of` Py.split "c d e"
  ∧ len (drop (Z.to_nat (3 - 1)) (Py.split "a b c")) ≤ 1
  ∧ (len (Py.split "a b c") = 3 → len (drop (Z.to_nat (3 - 1)) (Py.split "a b c")) = 1).
Proof.
  apply (chunk_text_consecutive_overlap Samples.five_words 3 1
           ["a b c"; "c d e"; "e"]%string 0 "a b c" "c d e").
  - lia.
  - by exists 10%nat.
  - reflexivity.
  - reflexivity.
Defined.

Lemma chunk_text_single_chunk_witness :
  (length ["a b c d e"%string] = 1%nat ↔ len (Py.split Samples.five_words) ≤ 7 - 2)
  ∧ (0 ≤ 2 → len (Py.split Samples.five_words) ≤ 7 - 2 →
     ["a b c d e"%string] = [Py.join " " (Py.split Samples.five_words)]).
Proof.
  apply (chunk_text_single_chunk Samples.five_words 7 2 ["a b c d e"%string]).
  - lia.
  - vm_compute. discriminate.
  - by exists 10%nat.
Defined.

Lemma chunk_text_default_nonempty_witness : Chunker.chunk_text_default "a" ≠ [].
Proof. apply (chunk_text_default_nonempty "a"). reflexivity. Defined.

Lemma upsert_succeeds_iff_witness :
  (VectorSearch.upsert Exact.fresh Exact.empty_disk Samples.two_records).2 = Ok ().
Proof.
  apply (upsert_succeeds_iff (num := Exact.numerics) Exact.fresh Exact.empty_disk
           Samples.two_records).
  - discriminate.
  - intros v Hv. unfold Samples.two_records in Hv.
    apply elem_of_cons in Hv as [->|Hv]; [reflexivity|].
    apply elem_of_cons in Hv as [->|Hv]; [reflexivity|].
    by apply elem_of_nil in Hv.
Defined.

Lemma upsert_ok_state_witness :
  VectorSearch.id_mapping
    (VectorSearch.upsert Exact.fresh Exact.empty_disk Samples.two_records).1.1
    !! Py.str (0 + Z.of_nat 1) = Some "b"%string.
Proof.
  destruct (upsert_ok_state (num := Exact.numerics) Exact.fresh
              (VectorSearch.upsert Exact.fresh Exact.empty_disk Samples.two_records).1.1
              Exact.empty_disk
              (VectorSearch.upsert Exact.fresh Exact.empty_disk Samples.two_records).1.2
              Samples.two_records)
    as (_ & _ & Hid & _).
  - vm_compute. reflexivity.
  - apply (Hid 1%nat ("b"%string, [0; 1], Exact.text_is "y")). reflexivity.
Defined.

Lemma upsert_then_reload_witness :
  VectorSearch.FAISSClient_init
    (VectorSearch.upsert Exact.fresh Exact.empty_disk Samples.two_records).1.2
    "policy-index" 2
  = Ok (VectorSearch.upsert Exact.fresh Exact.empty_disk Samples.two_records).1.1.
Proof.
  apply (upsert_then_reload (num := Exact.numerics) Exact.fresh _ Exact.empty_disk _
           Samples.two_records).
  - repeat split.
  - vm_compute. reflexivity.
Defined.

Lemma upsert_never_removes_witness :
  VectorSearch.index
    (VectorSearch.upsert Exact.stale Exact.stale_disk
       [("a"%string, [1; 0; 0], Exact.text_is "x")]).1.1
  = VectorSearch.index Exact.stale.
Proof.
  destruct (upsert_never_removes (num := Exact.numerics) Exact.stale Exact.stale_disk
              [("a"%string, [1; 0; 0], Exact.text_is "x")])
    as (_ & _ & _ & _ & Hfail).
  apply Hfail. vm_compute. discriminate.
Defined.

Lemma FAISSClient_init_without_index_file_witness :
  ∃ c, VectorSearch.FAISSClient_init Exact.empty_disk "policy-index" 2 = Ok c
       ∧ VectorSearch.ntotal (VectorSearch.index c) = 0
       ∧ LocalIndex.mapped c.
Proof.
  destruct (FAISSClient_init_without_index_file (num := Exact.numerics)
              Exact.empty_disk "policy-index" 2)
    as (c & Hc & _ & Hn & _ & _ & _ & Hm & _).
  - reflexivity.
  - by exists c.
Defined.

Lemma fresh_mapped : LocalIndex.mapped Exact.fresh.
Proof.
  split.
  - intros i Hi. unfold VectorSearch.ntotal, len in Hi. simpl in Hi. lia.
  - intros k id Hk. change ((∅ : gmap string string) !! k = Some id) in Hk.
    by rewrite lookup_empty in Hk.
Qed.

Lemma upsert_keeps_mapped_witness :
  LocalIndex.mapped
    (VectorSearch.upsert Exact.fresh Exact.empty_disk Samples.two_records).1.1.
Proof.
  apply (upsert_keeps_mapped (num := Exact.numerics) Exact.fresh Exact.empty_disk
           Samples.two_records).
  - exact fresh_mapped.
  - repeat split.
Defined.

Lemma query_mapped_matches_witness :
  ∃ pos md,
    0 ≤ pos < 2
    ∧ VectorSearch.id_mapping
        (VectorSearch.upsert Exact.fresh Exact.empty_disk Samples.two_records).1.1
        !! Py.str pos = Some "b"%string
    ∧ md = Exact.text_is "y".
Proof.
  destruct (query_mapped_matches (num := Exact.numerics)
              (VectorSearch.upsert Exact.fresh Exact.empty_disk Samples.two_records).1.1
              [0; 1] 1
              [Exact.found "b" 1 (Some (Exact.text_is "y"))]
              (Exact.found "b" 1 (Some (Exact.text_is "y"))))
    as (pos & md & Hpos & Hid & _ & Hmd).
  - apply (upsert_preserves_mapped (num := Exact.numerics) Exact.fresh
             Exact.empty_disk Samples.two_records). exact fresh_mapped.
  - vm_compute. reflexivity.
  - apply list_elem_of_here.
  - exists pos, md. split; [exact Hpos|]. split; [exact Hid|].
    simpl in Hmd. congruence.
Defined.

Lemma pinecone_upsert_batches_witness :
  Z.of_nat (length (ManagedIndex.batches Samples.hundred_and_one)) = (101 + 99) / 100
  ∧ ∀ b, ManagedIndex.batches Samples.hundred_and_one !! 0%nat = Some b →
         length b = 100%nat.
Proof.
  destruct (pinecone_upsert_batches (num := Exact.numerics) Samples.picky_remote
              Samples.managed_client [] Samples.hundred_and_one)
    as (_ & _ & Hlen & _ & Hfull).
  split; [exact Hlen|].
  intros b Hb. apply (Hfull 0%nat b Hb). vm_compute. lia.
Defined.

Lemma pinecone_upsert_partial_witness :
  VectorSearch.pinecone_upsert Samples.picky_remote Samples.managed_client []
    Samples.hundred_and_one
  = ([replicate 100 "ok"%string], Raise (RemoteError "400")).
Proof.
  apply (pinecone_upsert_partial (num := Exact.numerics) Samples.picky_remote
           Samples.managed_client [] [replicate 100 "ok"%string]
           [replicate 100 "ok"%string] Samples.hundred_and_one
           [replicate 100 ("ok"%string, [1; 0], ∅)] []
           [("bad"%string, [1; 0], ∅)] (RemoteError "400")).
  - vm_compute. reflexivity.
  - vm_compute. reflexivity.
  - vm_compute. reflexivity.
Defined.

Lemma PineconeClient_init_succeeds_iff_witness :
  is_ok (VectorSearch.PineconeClient_init Exact.environ_with_key Exact.no_indexes
           None None "policy-index").2 = true
  ∧ VectorSearch.PineconeClient_init ∅ Exact.no_indexes (Some EmptyString) None
      "policy-index"
    = (Exact.no_indexes, Raise (ValueError "PINECONE_API_KEY must be set")).
Proof.
  split.
  - apply (PineconeClient_init_succeeds_iff
             Exact.environ_with_key Exact.no_indexes None None "policy-index").
    split; reflexivity.
  - apply (PineconeClient_init_succeeds_iff
             ∅ Exact.no_indexes (Some EmptyString) None "policy-index").
    reflexivity.
Defined.

Lemma PineconeClient_init_hosts_index_witness :
  "policy-index"%string
  ∈ VectorSearch.idx_name <$> VectorSearch.hosted
      {| VectorSearch.reachable := true;
         VectorSearch.hosted := [Exact.created_index] |}.
Proof.
  apply (PineconeClient_init_hosts_index
           Exact.environ_with_key Exact.no_indexes
           {| VectorSearch.reachable := true;
              VectorSearch.hosted := [Exact.created_index] |}
           None None "policy-index" Samples.managed_client).
  reflexivity.
Defined.

Lemma create_vector_client_selection_witness :
  (∃ pc' c,
     VectorSearch.create_vector_client true true Exact.environ_with_key
       Exact.no_indexes Exact.empty_disk "policy-index" 768
     = (pc', Ok (VectorSearch.UsePinecone c)))
  ∧ (∃ msg,
       VectorSearch.create_vector_client true false ∅ Exact.no_indexes
         Exact.empty_disk "policy-index" 768
       = (Exact.no_indexes, Raise (RuntimeError msg))).
Proof.
  split.
  - destruct (create_vector_client_selection (num := Exact.numerics) true true
                Exact.environ_with_key Exact.no_indexes Exact.empty_disk
                "policy-index" 768) as (Hm & _ & _).
    destruct (Hm eq_refl) as (pc' & c & Hout & _). by exists pc', c.
  - destruct (create_vector_client_selection (num := Exact.numerics) true false
                ∅ Exact.no_indexes Exact.empty_disk "policy-index" 768)
      as (_ & _ & Hnone).
    apply Hnone; reflexivity.
Defined.

Lemma get_embedding_not_configured_witness :
  EmbeddingEngine.get_embeddings_batch Exact.gemini_services [] "openai" = Ok []
  ∧ EmbeddingEngine.get_embeddings_batch Exact.gemini_services ["a"%string] "openai"
    = Raise (ValueError "Provider 'openai' not available or API key missing").
Proof.
  destruct (get_embedding_not_configured (num := Exact.numerics)
              Exact.gemini_services "openai" ["a"%string])
    as (_ & Hempty & Hfail).
  - reflexivity.
  - discriminate.
  - discriminate.
  - split; [exact Hempty|]. by apply Hfail.
Defined.

Lemma run_query_status_witness :
  Endpoints.run_query Samples.text_file_world Config.default_settings
    Samples.text_file_state Samples.text_file_request
  = (Samples.text_file_state,
     Raise (HTTPException 400 "Only PDF and DOCX URLs are supported."))
  ∧ Endpoints.run_query Samples.malformed_url_world Config.default_settings
      Samples.malformed_url_state Samples.malformed_url_request
    = (Samples.malformed_url_state, Raise (ValueError "Invalid IPv6 URL"))
  ∧ Endpoints.http_status
      (Endpoints.run_query Samples.malformed_url_world Config.default_settings
         Samples.malformed_url_state Samples.malformed_url_request).2 = 500.
Proof.
  split.
  - destruct (run_query_status (num := Exact.numerics) Samples.text_file_world
                Config.default_settings Samples.text_file_state
                Samples.text_file_request) as (_ & _ & H400 & _).
    apply (H400 "/notes.txt"%string); reflexivity.
  - destruct (run_query_status (num := Exact.numerics) Samples.malformed_url_world
                Config.default_settings Samples.malformed_url_state
                Samples.malformed_url_request) as (_ & _ & _ & Hinvalid & _).
    rewrite (Hinvalid "Invalid IPv6 URL"%string eq_refl). split; reflexivity.
Defined.


Lemma vectors_to_upsert_records_witness :
  (∃ vectors,
     Endpoints.vectors_to_upsert (num := Exact.numerics) ["x"; "y"]%string [[1]; [2]]
     = Ok vectors ∧ length vectors = 2%nat)
  ∧ Endpoints.vectors_to_upsert (num := Exact.numerics) ["x"]%string [[1]; [2]]
    = Raise IndexError.
Proof.
  split.
  - destruct (vectors_to_upsert_records (num := Exact.numerics)
                ["x"; "y"]%string [[1]; [2]]) as [Hok _].
    destruct Hok as (vectors & Hv & Hlen & _); [simpl; lia|].
    by exists vectors.
  - apply (vectors_to_upsert_records (num := Exact.numerics) ["x"]%string [[1]; [2]]).
    simpl. lia.
Defined.

Lemma generate_intelligent_answer_provider_witness :
  LlmService.generate_intelligent_answer Samples.moody_model "What?" ["hello world"%string]
    "deepseek"
  = Ok ("Yes"%string,
        LlmService.answer_rationale "deepseek" ["hello world"%string])
  ∧ PyText.stripped "Yes".
Proof.
  destruct (generate_intelligent_answer_provider (num := Exact.numerics)
              Samples.moody_model "What?" ["hello world"%string] "gemini" "deepseek")
    as [Hok _].
  apply (Hok "Yes"%string (LlmService.answer_rationale "gemini" ["hello world"%string])).
  vm_compute. reflexivity.
Defined.

Lemma create_clause_explanations_fallback_witness :
  ∃ clause,
    LlmService.create_clause_explanations Samples.moody_model
      ["hello world"%string] [1] "What?" !! 0%nat = Some clause
    ∧ Endpoints.clause_text clause = "hello world"%string
    ∧ Endpoints.clause_explanation clause
      = Some ("Semantic similarity score: " +:+ "1.000"
              +:+ " - This section contains content related to your query.").
Proof.
  destruct (create_clause_explanations_fallback (num := Exact.numerics)
              Samples.moody_model ["hello world"%string] [1] "What?")
    as [_ Hcl].
  destruct (Hcl 0%nat "hello world"%string 1 eq_refl eq_refl)
    as (clause & explanation & H1 & H2 & H3 & Hfail & _).
  exists clause. split; [exact H1|]. split; [exact H2|].
  rewrite H3. f_equal. apply (Hfail (RemoteError "503")). reflexivity.
Defined.

Lemma answer_question_clauses_witness :
  ∃ a, Endpoints.answer_question Samples.answering Config.default_settings
         Samples.indexed_client Samples.no_stores "What?" = Ok a
       ∧ PyText.stripped (Endpoints.answer a).
Proof.
  destruct (Endpoints.answer_question Samples.answering Config.default_settings
              Samples.indexed_client Samples.no_stores "What?") as [a|e] eqn:Ha.
  - destruct (answer_question_clauses (num := Exact.numerics) Samples.moody_model
                Samples.answering Config.default_settings Samples.indexed_client
                Samples.no_stores "What?" a)
      as (query_emb & matches & _ & _ & _ & Hs & _).
    + split; reflexivity.
    + exact Ha.
    + exists a. split; [reflexivity|exact Hs].
  - vm_compute in Ha. discriminate Ha.
Defined.

Lemma run_query_without_client_witness :
  Endpoints.http_status
    (Endpoints.run_query Samples.answering Config.default_settings
       Samples.no_client_state Samples.two_questions).2 = 500.
Proof.
  destruct (run_query_without_client (num := Exact.numerics) Samples.answering
              Config.default_settings Samples.no_client_state Samples.two_questions)
    as (_ & _ & Hmsg).
  - reflexivity.
  - rewrite (Hmsg "/assets/policy.pdf"%string "pdf"%string "hello world"%string [[11]]);
      reflexivity.
Defined.
